(** * BiliSpeech2Text: selection of episodes and the progress ledger

    A shallow embedding of [src/main.py] (class [BiliDown2Text]): the
    progress ledger ([_load_progress], [_save_progress]), the selection of
    episodes of a collection ([process_collection]) and the loop of
    [process_video], followed by the properties the specification states
    about them.

    Conventions of the embedding.
    - A Python [str] is a [string] holding its UTF-8 encoding.
    - A Python [int] is a [Z].
    - Code that prints, reads the operator's input, touches files or raises
      runs in the monad [M S], a state monad over [S] with exceptions; the
      state reached when an exception is raised is kept.
    - A file is modelled by what reading it gives: a JSON document, a text
      that [json.load] rejects, or an error.  [json.dump] followed by
      [json.load] gives back the document (a property of Python's [json]
      module that the embedding takes for granted).
    - JSON booleans and fractional numbers are not part of the model of
      documents: as set members Python identifies [True] with [1] and [1.0]
      with [1]. *)

From Stdlib Require Import Ascii.
From stdpp Require Import gmap strings list pretty.

Set Warnings "-register-all".

Local Open Scope string_scope.
Local Open Scope list_scope.
Local Open Scope Z_scope.
Local Open Scope stdpp_scope.

(** ** Python strings *)

Module PyStr.

Definition nl : string := String (Ascii.ascii_of_nat 10) "".

Definition dquote : string := String (Ascii.ascii_of_nat 34) "".

Definition bytes (s : string) : list N :=
  Ascii.N_of_ascii <$> String.list_ascii_of_string s.

Definition of_bytes (l : list N) : string :=
  String.string_of_list_ascii (Ascii.ascii_of_N <$> l).

(** ['='*50] *)
Fixpoint times (s : string) (n : nat) : string :=
  match n with
  | O => ""
  | S n' => s +:+ times s n'
  end.

(** White space in the sense of [str.isspace], by the length of its UTF-8
    encoding: U+0009..U+000D, U+001C..U+0020; U+0085, U+00A0; U+1680,
    U+2000..U+200A, U+2028, U+2029, U+202F, U+205F, U+3000. *)
Definition ws1 (a : N) : bool :=
  ((9 <=? a) && (a <=? 13) || (28 <=? a) && (a <=? 32))%N.

Definition ws2 (a b : N) : bool :=
  ((a =? 194) && ((b =? 133) || (b =? 160)))%N.

Definition ws3 (a b c : N) : bool :=
  ((a =? 225) && (b =? 154) && (c =? 128)
   || (a =? 226) && (b =? 128)
      && ((128 <=? c) && (c <=? 138) || (c =? 168) || (c =? 169) || (c =? 175))
   || (a =? 226) && (b =? 129) && (c =? 159)
   || (a =? 227) && (b =? 128) && (c =? 128))%N.

Fixpoint lstrip_bytes (l : list N) : list N :=
  match l with
  | [] => []
  | a :: l1 =>
      if ws1 a then lstrip_bytes l1
      else match l1 with
           | b :: l2 =>
               if ws2 a b then lstrip_bytes l2
               else match l2 with
                    | c :: l3 => if ws3 a b c then lstrip_bytes l3 else l
                    | [] => l
                    end
           | [] => l
           end
  end.

(** The same from the right end, on the reversed bytes: in UTF-8 the last
    bytes of a text are the encoding of its last character. *)
Fixpoint rstrip_rev (l : list N) : list N :=
  match l with
  | [] => []
  | a :: l1 =>
      if ws1 a then rstrip_rev l1
      else match l1 with
           | b :: l2 =>
               if ws2 b a then rstrip_rev l2
               else match l2 with
                    | c :: l3 => if ws3 c b a then rstrip_rev l3 else l
                    | [] => l
                    end
           | [] => l
           end
  end.

(** [s.strip()] *)
Definition strip (s : string) : string :=
  of_bytes (reverse (rstrip_rev (reverse (lstrip_bytes (bytes s))))).

(** [s.split(',')]: never empty, [''.split(',') == ['']]. *)
Fixpoint split_comma (s : string) : list string :=
  match s with
  | "" => [""]
  | String c s' =>
      if Ascii.eqb c ","%char then "" :: split_comma s'
      else match split_comma s' with
           | p :: ps => String c p :: ps
           | [] => [String c ""]
           end
  end.

(** [s.replace('，', ',')]: the full-width comma U+FF0C is the bytes
    EF BC 8C. *)
Fixpoint replace_fullwidth_comma (s : string) : string :=
  match s with
  | "" => ""
  | String a s1 =>
      match s1 with
      | String b (String c r) =>
          if ((Ascii.N_of_ascii a =? 239) && (Ascii.N_of_ascii b =? 188)
              && (Ascii.N_of_ascii c =? 140))%N
          then String ","%char (replace_fullwidth_comma r)
          else String a (replace_fullwidth_comma s1)
      | _ => String a (replace_fullwidth_comma s1)
      end
  end.

(** The characters of a text, each as a string: a byte 10xxxxxx continues
    the character before it. *)
Definition is_cont (a : ascii) : bool :=
  ((128 <=? Ascii.N_of_ascii a) && (Ascii.N_of_ascii a <? 192))%N.

Fixpoint chars_go (s : string) : string * list string :=
  match s with
  | "" => ("", [])
  | String a s' =>
      let '(pending, cs) := chars_go s' in
      if is_cont a then (String a pending, cs)
      else ("", String a pending :: cs)
  end.

Definition chars (s : string) : list string := (chars_go s).2.

(** [str(n)] for an [int]. *)
Definition str (n : Z) : string := pretty n.

(** Truth value of a string: [if s:] *)
Definition truthy (s : string) : bool := negb (String.eqb s "").

End PyStr.

(** ** Exceptions and the monad of effects *)

(** The classes the program meets.  [ValueError] stands for itself and its
    subclasses ([json.JSONDecodeError], [UnicodeDecodeError]), [OSError]
    likewise.  [KeyboardInterrupt] is not a subclass of [Exception]. *)
Inductive exn_class :=
| ValueError | IndexError | TypeError | OSError | EOFError
| OtherException | KeyboardInterrupt.

Record exn := Exn { exn_cls : exn_class; exn_msg : string }.

Global Instance exn_class_eq_dec : EqDecision exn_class.
Proof. solve_decision. Defined.

(** [except Exception] *)
Definition is_Exception (e : exn) : bool :=
  match exn_cls e with
  | KeyboardInterrupt => false
  | _ => true
  end.

(** [except (ValueError, IndexError)] *)
Definition is_ValueError_or_IndexError (e : exn) : bool :=
  match exn_cls e with
  | ValueError | IndexError => true
  | _ => false
  end.

Inductive result (A : Type) :=
| Ok (a : A)
| Raise (e : exn).
Arguments Ok {A} a.
Arguments Raise {A} e.

Definition M (S A : Type) : Type := S → result A * S.

Definition ret {S A} (a : A) : M S A := λ s, (Ok a, s).

Definition bind {S A B} (m : M S A) (k : A → M S B) : M S B :=
  λ s, match m s with
       | (Ok a, s') => k a s'
       | (Raise e, s') => (Raise e, s')
       end.

Definition raise {S A} (e : exn) : M S A := λ s, (Raise e, s).

(** [try: body  except <classes> as e: handler e] *)
Definition try_except {S A} (body : M S A) (catches : exn → bool)
    (handler : exn → M S A) : M S A :=
  λ s, match body s with
       | (Ok a, s') => (Ok a, s')
       | (Raise e, s') => if catches e then handler e s' else (Raise e, s')
       end.

Definition get {S} : M S S := λ s, (Ok s, s).
Definition modify {S} (f : S → S) : M S unit := λ s, (Ok tt, f s).

(** Run a computation on the first component of a pair of states. *)
Definition on_fst {S T A} (m : M S A) : M (S * T) A :=
  λ st, let '(r, s') := m st.1 in (r, (s', st.2)).

Declare Scope py_scope.
Delimit Scope py_scope with py.
Notation "x <- m ;; k" := (bind m (λ x, k))
  (at level 100, m at next level, right associativity) : py_scope.
Notation "m ;; k" := (bind m (λ _, k))
  (at level 100, right associativity) : py_scope.
Local Open Scope py_scope.

(** [for x in l: body x] *)
Fixpoint for_each {S A} (l : list A) (body : A → M S unit) : M S unit :=
  match l with
  | [] => ret tt
  | x :: l' => body x ;; for_each l' body
  end.

(** ** JSON documents, files and the world *)

Inductive json :=
| JNull
| JInt (n : Z)
| JStr (s : string)
| JArr (l : list json)
| JObj (kv : list (string * json)).

(** What a path of the file system holds, by what reading it gives. *)
Inductive file :=
| Unreadable (msg : string)   (* [open] or reading raises [OSError] *)
| NotJson (msg : string)      (* a text [json.load] rejects *)
| JsonDoc (j : json).         (* a text [json.load] decodes to [j] *)

(** The members a ledger can have: [set(json.load(f))] keeps whatever
    hashable values the document lists. *)
Inductive pykey :=
| KStr (s : string)
| KInt (n : Z)
| KNone.

Global Instance pykey_eq_dec : EqDecision pykey.
Proof. solve_decision. Defined.

Global Instance pykey_countable : Countable pykey.
Proof.
  refine (inj_countable'
    (λ k, match k with
          | KStr s => inl s
          | KInt n => inr (Some n)
          | KNone => inr None
          end)
    (λ x, match x with
          | inl s => KStr s
          | inr (Some n) => KInt n
          | inr None => KNone
          end) _).
  by intros [].
Defined.

(** The metadata of a collection, as far as the program reads it.  A key
    that is missing is [None]. *)
Record Episode := {
  ep_title : option string;
  ep_long_title : option string;
  ep_bvid : option string;
  ep_aid : option Z }.

Record Section_ := {
  sec_title : option string;
  sec_episodes : list Episode }.

Record UgcSeason := {
  season_title : option string;
  season_sections : list Section_ }.

(** [data]: the decoded [__INITIAL_STATE__]. *)
Record Data := {
  data_bvid : option string;            (* data['videoData']['bvid'] *)
  data_ugc_season : option UgcSeason }. (* data['videoData']['ugc_season'] *)

(** The dictionaries [process_collection] returns. *)
Record video_info := {
  title : string;
  bvid : string;
  aid : option Z }.

Global Instance video_info_eq_dec : EqDecision video_info.
Proof. solve_decision. Defined.

(** What [requests.get] answers, as the program decodes it: a page with or
    without [window.__INITIAL_STATE__], or the document of the video API. *)
Inductive response :=
| NetError (msg : string)             (* the request raises *)
| Page (state : option (option Data)) (* no state; a state [json.loads] rejects; the state *)
| ApiJson (code : Z) (message : string) (video : video_info).

Record World := {
  fs : gmap string file;      (* the files, by path *)
  readonly : gset string;     (* paths that cannot be opened for writing *)
  web : list response;        (* the answers to the requests to come *)
  stdin : list string;        (* the lines the operator will type *)
  stdout : list string }.     (* what has been written to the console *)

Definition with_fs (f : gmap string file → gmap string file) (w : World) : World :=
  {| fs := f (fs w); readonly := readonly w; web := web w;
     stdin := stdin w; stdout := stdout w |}.

Definition with_web (f : list response → list response) (w : World) : World :=
  {| fs := fs w; readonly := readonly w; web := f (web w);
     stdin := stdin w; stdout := stdout w |}.

Definition with_stdin (f : list string → list string) (w : World) : World :=
  {| fs := fs w; readonly := readonly w; web := web w;
     stdin := f (stdin w); stdout := stdout w |}.

Definition with_stdout (f : list string → list string) (w : World) : World :=
  {| fs := fs w; readonly := readonly w; web := web w;
     stdin := stdin w; stdout := f (stdout w) |}.

(** [print(s)] *)
Definition print (s : string) : M World unit :=
  modify (with_stdout (λ out, out ++ [s +:+ PyStr.nl])).

(** [input(prompt)]: writes the prompt, reads a line; [EOFError] when the
    input is exhausted. *)
Definition input (prompt : string) : M World string :=
  λ w, match stdin w with
       | [] => (Raise (Exn EOFError "EOF when reading a line"),
                with_stdout (λ out, out ++ [prompt]) w)
       | l :: ls =>
           (Ok l, with_stdin (λ _, ls) (with_stdout (λ out, out ++ [prompt]) w))
       end.

(** [os.path.exists(path)] *)
Definition path_exists (path : string) : M World bool :=
  λ w, (Ok (bool_decide (is_Some (fs w !! path))), w).

(** [with open(path, 'r', encoding='utf-8') as f: json.load(f)] *)
Definition read_json (path : string) : M World json :=
  λ w, match fs w !! path with
       | None => (Raise (Exn OSError "No such file or directory"), w)
       | Some (Unreadable msg) => (Raise (Exn OSError msg), w)
       | Some (NotJson msg) => (Raise (Exn ValueError msg), w)
       | Some (JsonDoc j) => (Ok j, w)
       end.

(** [with open(path, 'w', encoding='utf-8') as f: json.dump(j, f)] *)
Definition write_json (path : string) (j : json) : M World unit :=
  λ w, if bool_decide (path ∈ readonly w)
       then (Raise (Exn OSError "Permission denied"), w)
       else (Ok tt, with_fs (<[path := JsonDoc j]>) w).

(** [set(j)] for a decoded document [j]. *)
Definition hashable (j : json) : result pykey :=
  match j with
  | JNull => Ok KNone
  | JInt n => Ok (KInt n)
  | JStr s => Ok (KStr s)
  | JArr _ => Raise (Exn TypeError "unhashable type: 'list'")
  | JObj _ => Raise (Exn TypeError "unhashable type: 'dict'")
  end.

Fixpoint hashables (l : list json) : result (list pykey) :=
  match l with
  | [] => Ok []
  | j :: l' =>
      match hashable j with
      | Raise e => Raise e
      | Ok k =>
          match hashables l' with
          | Raise e => Raise e
          | Ok ks => Ok (k :: ks)
          end
      end
  end.

Definition py_set (j : json) : result (gset pykey) :=
  match j with
  | JNull => Raise (Exn TypeError "'NoneType' object is not iterable")
  | JInt _ => Raise (Exn TypeError "'int' object is not iterable")
  | JStr s => Ok (list_to_set (KStr <$> PyStr.chars s))
  | JObj kv => Ok (list_to_set (KStr <$> kv.*1))
  | JArr l =>
      match hashables l with
      | Raise e => Raise e
      | Ok ks => Ok (list_to_set ks)
      end
  end.

Definition lift_result {S A} (r : result A) : M S A := λ s, (r, s).

(** [json.dump(list(s), f)]: the members in the order the set gives them. *)
Definition key_json (k : pykey) : json :=
  match k with
  | KStr s => JStr s
  | KInt n => JInt n
  | KNone => JNull
  end.

Definition json_of_set (s : gset pykey) : json := JArr (key_json <$> elements s).

(** ** The progress ledger *)

Definition base_dir : string := "bilibili_video".

(** [os.path.join(self.base_dir, f'progress_{collection_id}.json')] *)
Definition progress_file (collection_id : string) : string :=
  base_dir +:+ "/" +:+ "progress_" +:+ collection_id +:+ ".json".

(** The body of the [try] of [_load_progress]:
    [with open(...) as f: return set(json.load(f))]. *)
Definition read_ledger (collection_id : string) : M World (gset pykey) :=
  j <- read_json (progress_file collection_id) ;;
  lift_result (py_set j).

Definition load_failure (e : exn) : string := "加载进度文件失败: " +:+ exn_msg e.

Definition _load_progress (collection_id : string) : M World (gset pykey) :=
  ex <- path_exists (progress_file collection_id) ;;
  r <- (if ex : bool then
         try_except
           (s <- read_ledger collection_id ;; ret (Some s))
           is_Exception
           (λ e, print (load_failure e) ;; ret None)
       else ret None) ;;
  match r with
  | Some s => ret s          (* the [return] inside the [try] *)
  | None => ret ∅            (* the final [return set()] *)
  end.

Definition save_failure (e : exn) : string := "保存进度文件失败: " +:+ exn_msg e.

Definition _save_progress (collection_id : string) (downloaded_videos : gset pykey)
    : M World unit :=
  try_except
    (write_json (progress_file collection_id) (json_of_set downloaded_videos))
    is_Exception
    (λ e, print (save_failure e)).

(** ** Selection of the episodes of a collection *)

(** [episode.get('bvid', '')] *)
Definition episode_bvid (episode : Episode) : string := default "" (ep_bvid episode).

(** The title shown and returned: [title], joined with [long_title] when
    there is one. *)
Definition episode_title (episode : Episode) : string :=
  let title := default "未知标题" (ep_title episode) in
  let long_title := default "" (ep_long_title episode) in
  if PyStr.truthy long_title then title +:+ " - " +:+ long_title else title.

(** [{'title': title, 'bvid': bvid, 'aid': episode.get('aid')}] *)
Definition episode_info (episode : Episode) : video_info :=
  {| title := episode_title episode;
     bvid := episode_bvid episode;
     aid := ep_aid episode |}.

(** [ugc_season.get('sections', [])], with [ugc_season = {}] when the key
    is missing. *)
Definition data_sections (data : Data) : list Section_ :=
  match data_ugc_season data with
  | Some ugc_season => season_sections ugc_season
  | None => []
  end.

Definition data_title (data : Data) : string :=
  default "未知标题" (data_ugc_season data ≫= season_title).

(** [video_data.get('bvid', '')] *)
Definition data_collection_id (data : Data) : string := default "" (data_bvid data).

(** The listing of the collection (lines 113-139). *)
Fixpoint show_episodes (episodes : list Episode) (video_index : Z) : M World Z :=
  match episodes with
  | [] => ret video_index
  | episode :: rest =>
      print ("[" +:+ PyStr.str video_index +:+ "] [" +:+ episode_bvid episode
             +:+ "] " +:+ episode_title episode) ;;
      show_episodes rest (video_index + 1)
  end.

Fixpoint show_sections (several : bool) (sections : list Section_)
    (section_index video_index : Z) : M World Z :=
  match sections with
  | [] => ret video_index
  | section :: rest =>
      (if several then
         print ("第" +:+ PyStr.str section_index +:+ "部分："
                +:+ default "未命名部分" (sec_title section)) ;;
         print (PyStr.times "-" 30)
       else ret tt) ;;
      video_index' <- show_episodes (sec_episodes section) video_index ;;
      (if several then print "" else ret tt) ;;
      show_sections several rest (section_index + 1) video_index'
  end.

Definition total_episodes (sections : list Section_) : Z :=
  foldr (λ section acc, Z.of_nat (length (sec_episodes section)) + acc) 0 sections.

Definition show_collection (data : Data) : M World unit :=
  let sections := data_sections data in
  print (PyStr.nl +:+ PyStr.times "=" 50) ;;
  print "检测到视频合集" ;;
  print (PyStr.times "=" 50) ;;
  print ("合集标题：" +:+ data_title data) ;;
  print ("合集总集数：" +:+ PyStr.str (total_episodes sections)) ;;
  print (PyStr.times "-" 50 +:+ PyStr.nl) ;;
  show_sections (bool_decide (1 < Z.of_nat (length sections))) sections 1 1 ;;
  print (PyStr.times "=" 50).

(** The state of the selection: the world and the list [selected_videos],
    which the branches extend in place. *)
Definition Sel : Type := World * list video_info.

Definition append_selected (v : video_info) : M Sel unit :=
  modify (λ st : Sel, (st.1, st.2 ++ [v])).

Definition skip_notice (bvid : string) : string := "跳过已下载的视频：" +:+ bvid.

(** Choice 1: the whole collection (lines 149-167). *)
Definition select_all_episode (downloaded_videos : gset pykey) (episode : Episode)
    : M Sel unit :=
  let bvid := episode_bvid episode in
  if bool_decide (KStr bvid ∈ downloaded_videos) then
    on_fst (print (skip_notice bvid))
  else if PyStr.truthy bvid then append_selected (episode_info episode)
  else ret tt.

Definition select_all (downloaded_videos : gset pykey) (sections : list Section_)
    : M Sel unit :=
  for_each sections (λ section,
    for_each (sec_episodes section) (select_all_episode downloaded_videos)).

(** Choice 2: single videos by number or by BV id (lines 168-196). *)
Definition tokens_of (line : string) : list string :=
  let selection := PyStr.replace_fullwidth_comma (PyStr.strip line) in
  PyStr.strip <$>
    filter (λ x, PyStr.truthy (PyStr.strip x) = true) (PyStr.split_comma selection).

Definition map_episode (acc : gmap string video_info * Z) (episode : Episode)
    : gmap string video_info * Z :=
  let '(video_map, index) := acc in
  if PyStr.truthy (episode_bvid episode) then
    let video_info := episode_info episode in
    (<[episode_bvid episode := video_info]>
       (<[PyStr.str index := video_info]> video_map),
     index + 1)
  else acc.

Definition build_video_map (sections : list Section_) : gmap string video_info :=
  (foldl (λ acc section, foldl map_episode acc (sec_episodes section))
         (∅, 1) sections).1.

Definition select_token (video_map : gmap string video_info) (selection : string)
    : M Sel unit :=
  match video_map !! selection with
  | Some video => append_selected video
  | None => ret tt
  end.

Definition select_by_ids (sections : list Section_) : M Sel unit :=
  on_fst (print (PyStr.nl +:+ "请输入要下载的视频序号或BV号（多个用逗号分隔）：")) ;;
  line <- on_fst (input "> ") ;;
  let selected_bvids := tokens_of line in
  let video_map := build_video_map sections in
  for_each selected_bvids (select_token video_map).

(** Choice 3: a range of numbers (lines 197-229). *)
Definition build_all_videos (sections : list Section_) : list video_info :=
  foldl (λ all_videos section,
           foldl (λ all_videos episode,
                    if PyStr.truthy (episode_bvid episode)
                    then all_videos ++ [episode_info episode]
                    else all_videos)
                 all_videos (sec_episodes section))
        [] sections.

(** [range(a, b)] *)
Definition py_range (a b : Z) : list Z := seqZ a (b - a).

(** [l[i]]: a negative index counts from the end; [IndexError] outside. *)
Definition py_index {A} (l : list A) (i : Z) : result A :=
  let j := if bool_decide (i < 0) then Z.of_nat (length l) + i else i in
  match (if bool_decide (0 ≤ j) then l !! Z.to_nat j else None) with
  | Some x => Ok x
  | None => Raise (Exn IndexError "list index out of range")
  end.

(** The menu and the operator's choice (lines 141-146). *)
Definition menu : M World string :=
  print (PyStr.nl +:+ "请选择下载选项：") ;;
  print "1. 下载整个合集" ;;
  print "2. 选择单个或多个视频" ;;
  print "3. 按区间下载" ;;
  input "请输入选项编号 (1/2/3): ".

(** Lines 105-146: the ledger is loaded, the collection is listed and the
    operator is asked; the loaded ledger and the choice. *)
Definition ask_choice (data : Data) : M World (gset pykey * string) :=
  downloaded_videos <- _load_progress (data_collection_id data) ;;
  show_collection data ;;
  choice <- menu ;;
  ret (downloaded_videos, choice).

(** Run [m] with a fresh local list [selected_videos = []]. *)
Definition with_selected {A} (m : M Sel A) : M World A :=
  λ w, let '(r, st) := m (w, []) in (r, st.1).

Section Selection.

(** [int(s)] for a string: the integer, or [None] where Python raises
    [ValueError]. *)
Variable py_int : string → option Z.

Definition int_or_raise (s : string) : result Z :=
  match py_int s with
  | Some n => Ok n
  | None => Raise (Exn ValueError ("invalid literal for int() with base 10: " +:+ s))
  end.

(** [start, end = map(int, pieces)]: the pieces are converted one by one
    as the unpacking asks for them, a third one included. *)
Definition unpack_two_ints (pieces : list string) : result (Z * Z) :=
  match pieces with
  | [] => Raise (Exn ValueError "not enough values to unpack (expected 2, got 0)")
  | a :: rest =>
      match int_or_raise a with
      | Raise e => Raise e
      | Ok start =>
          match rest with
          | [] => Raise (Exn ValueError "not enough values to unpack (expected 2, got 1)")
          | b :: rest' =>
              match int_or_raise b with
              | Raise e => Raise e
              | Ok end_ =>
                  match rest' with
                  | [] => Ok (start, end_)
                  | c :: _ =>
                      match int_or_raise c with
                      | Raise e => Raise e
                      | Ok _ => Raise (Exn ValueError "too many values to unpack (expected 2)")
                      end
                  end
              end
          end
      end
  end.

Definition select_range_item (downloaded_videos : gset pykey)
    (all_videos : list video_info) (i : Z) : M Sel unit :=
  video <- lift_result (py_index all_videos i) ;;
  if bool_decide (KStr (bvid video) ∉ downloaded_videos)
  then append_selected video
  else on_fst (print (skip_notice (bvid video))).

Definition select_range (downloaded_videos : gset pykey) (sections : list Section_)
    : M Sel unit :=
  on_fst (print (PyStr.nl +:+ "请输入下载区间的起始和结束序号（如：1,10）：")) ;;
  try_except
    (line <- on_fst (input "> ") ;;
     bounds <- lift_result (unpack_two_ints (PyStr.split_comma (PyStr.strip line))) ;;
     let start := bounds.1 in
     let end_ := bounds.2 in
     let all_videos := build_all_videos sections in
     if bool_decide (1 ≤ start ∧ start ≤ end_ ∧ end_ ≤ Z.of_nat (length all_videos))
     then for_each (py_range (start - 1) end_)
                   (select_range_item downloaded_videos all_videos)
     else on_fst (print ("无效的区间范围，请输入1到"
                         +:+ PyStr.str (Z.of_nat (length all_videos))
                         +:+ "之间的数字")))
    is_ValueError_or_IndexError
    (λ _, on_fst (print ("输入格式错误，请按照" +:+ PyStr.dquote +:+ "起始序号,结束序号"
                         +:+ PyStr.dquote +:+ "的格式输入"))).

(** The branches on the operator's choice and the final
    [return selected_videos] (lines 148-231). *)
Definition select (choice : string) (downloaded_videos : gset pykey)
    (sections : list Section_) : M Sel (list video_info) :=
  (if String.eqb choice "1" then select_all downloaded_videos sections
   else if String.eqb choice "2" then select_by_ids sections
   else if String.eqb choice "3" then select_range downloaded_videos sections
   else ret tt) ;;
  st <- get ;;
  ret st.2.

Definition process_collection (data : Data) : M World (list video_info) :=
  let sections := data_sections data in
  ld <- ask_choice data ;;
  with_selected (select ld.2 ld.1 sections).

End Selection.

(** ** The metadata resolver and the loop over the selected videos *)

Definition empty_data : Data := {| data_bvid := None; data_ugc_season := None |}.

(** [requests.get(url, ...)]: the next answer of the network. *)
Definition requests_get (url : string) : M World response :=
  λ w, match web w with
       | [] => (Raise (Exn OtherException "connection failed"), w)
       | NetError msg :: rest => (Raise (Exn OtherException msg), with_web (λ _, rest) w)
       | r :: rest => (Ok r, with_web (λ _, rest) w)
       end.

Definition check_collection (url : string) : M World (bool * Data) :=
  try_except
    (response <- requests_get url ;;
     match response with
     | Page (Some (Some data)) =>
         if bool_decide (is_Some (data_ugc_season data))
         then ret (true, data) else ret (false, data)
     | Page (Some None) => print "解析页面数据失败" ;; ret (false, empty_data)
     | _ => ret (false, empty_data)
     end)
    is_Exception
    (λ e, print ("检查合集状态时发生错误: " +:+ exn_msg e) ;; ret (false, empty_data)).

(** What [process_video] records of its calls: the ledger it loads, the
    sets it hands to [_save_progress] and the stages it invokes. *)
Inductive event :=
| EvLoad (collection_id : string) (loaded : gset pykey)
| EvSave (collection_id : string) (saved : gset pykey)
| EvDownload (video : video_info)
| EvExtractAudio (video_path title bvid : string)
| EvSplitAudio (audio_path title bvid : string)
| EvTranscribe (audio_chunks : list string) (title bvid : string).

(** The state of [process_video]: the world and the record of its calls,
    which the stages cannot reach. *)
Definition PV : Type := World * list event.

Definition log (e : event) : M PV unit := modify (λ st : PV, (st.1, st.2 ++ [e])).

Section Pipeline.

Variable py_int : string → option Z.

(** The two searches of the URL ([BV_PATTERN], [AV_PATTERN]) and the
    address of the video API built from the match, if any. *)
Variable video_api_url : string → option string.

(** The stages call the network, the downloader, ffmpeg, pydub and the
    speech model; what they do to the world and what they return or raise
    is left open. *)
Variable download_video : video_info → M World (option string).
Variable extract_audio : string → string → string → M World string.
Variable split_audio : string → string → string → M World (list string).
Variable transcribe_audio : list string → string → string → M World string.

Definition extract_video_info (url : string) : M World (list video_info) :=
  cd <- check_collection url ;;
  let is_collection := cd.1 in
  let data := cd.2 in
  (* [data] is not empty when [is_collection] holds *)
  if is_collection then process_collection py_int data
  else
    match video_api_url url with
    | None => print "无效的视频链接格式" ;; ret []
    | Some api_url =>
        try_except
          (response <- requests_get api_url ;;
           match response with
           | ApiJson code message video =>
               if bool_decide (code = 0) then ret [video]
               else print ("获取视频信息失败：" +:+ message) ;; ret []
           | _ => raise (Exn ValueError "Expecting value")
           end)
          is_Exception
          (λ e, print ("请求视频信息时出错：" +:+ exn_msg e) ;; ret [])
    end.

Definition output_path_of (video : video_info) : string :=
  let output_dir := "bilibili_video/" +:+ title video +:+ "/outputs" in
  output_dir +:+ "/" +:+ bvid video +:+ ".txt".

(** The body of the loop (lines 412-440); it returns [downloaded_videos]
    as the iteration leaves it. *)
Definition process_one (collection_id : string) (video : video_info)
    (downloaded_videos : gset pykey) : M PV (gset pykey) :=
  on_fst (print (PyStr.nl +:+ "处理视频：" +:+ title video)) ;;
  let output_path := output_path_of video in
  ex <- on_fst (path_exists output_path) ;;
  if ex : bool then
    on_fst (print ("文本文件已存在：" +:+ output_path +:+ "，跳过处理")) ;;
    ret downloaded_videos
  else
    log (EvDownload video) ;;
    video_path <- on_fst (download_video video) ;;
    match video_path with
    | None => on_fst (print "视频下载失败") ;; ret downloaded_videos
    | Some video_path =>
        if negb (PyStr.truthy video_path) then
          on_fst (print "视频下载失败") ;; ret downloaded_videos
        else
          log (EvExtractAudio video_path (title video) (bvid video)) ;;
          audio_path <- on_fst (extract_audio video_path (title video) (bvid video)) ;;
          log (EvSplitAudio audio_path (title video) (bvid video)) ;;
          audio_chunks <- on_fst (split_audio audio_path (title video) (bvid video)) ;;
          log (EvTranscribe audio_chunks (title video) (bvid video)) ;;
          on_fst (transcribe_audio audio_chunks (title video) (bvid video)) ;;
          if PyStr.truthy collection_id then
            let downloaded_videos := {[KStr (bvid video)]} ∪ downloaded_videos in
            log (EvSave collection_id downloaded_videos) ;;
            on_fst (_save_progress collection_id downloaded_videos) ;;
            ret downloaded_videos
          else ret downloaded_videos
    end.

Fixpoint process_each (collection_id : string) (videos : list video_info)
    (downloaded_videos : gset pykey) : M PV (gset pykey) :=
  match videos with
  | [] => ret downloaded_videos
  | video :: rest =>
      downloaded_videos' <- process_one collection_id video downloaded_videos ;;
      process_each collection_id rest downloaded_videos'
  end.

Definition process_video (url : string) : M PV unit :=
  videos <- on_fst (extract_video_info url) ;;
  match videos with
  | [] => on_fst (print "无法获取视频信息")
  | _ :: _ =>
      cd <- on_fst (check_collection url) ;;
      let is_collection := cd.1 in
      let data := cd.2 in
      let collection_id := if is_collection then data_collection_id data else "" in
      downloaded_videos <-
        (if PyStr.truthy collection_id then
           loaded <- on_fst (_load_progress collection_id) ;;
           log (EvLoad collection_id loaded) ;;
           ret loaded
         else ret ∅) ;;
      process_each collection_id videos downloaded_videos ;;
      ret tt
  end.

End Pipeline.

(** An instance of [int] for examples: optional white space, an optional
    sign, decimal digits. *)
Module IntAscii.

Fixpoint digits (l : list N) (acc : Z) : option Z :=
  match l with
  | [] => Some acc
  | d :: l' =>
      if ((48 <=? d) && (d <=? 57))%N
      then digits l' (10 * acc + Z.of_N (d - 48))
      else None
  end.

Definition unsigned (l : list N) : option Z :=
  match l with
  | [] => None
  | _ => digits l 0
  end.

Definition int (s : string) : option Z :=
  match PyStr.bytes (PyStr.strip s) with
  | 45%N :: l => Z.opp <$> unsigned l
  | 43%N :: l => unsigned l
  | l => unsigned l
  end.

End IntAscii.

(** ** The configuration and the state embedded in a page *)

Definition default_config : json :=
  JObj [("bilibili", JObj [("cookies", JObj []); ("headers", JObj [])])].

Definition config_failure (e : exn) : string := "加载配置文件失败: " +:+ exn_msg e.

Definition load_config : M World json :=
  let config_path := "config.json" in
  ex <- path_exists config_path ;;
  r <- (if ex : bool then
         try_except
           (j <- read_json config_path ;; ret (Some j))
           is_Exception
           (λ e, print (config_failure e) ;; ret None)
       else ret None) ;;
  match r with
  | Some j => ret j          (* the [return] inside the [try] *)
  | None => ret default_config
  end.

(** Searching a text for a fixed text. *)
Module Scan.

Fixpoint drop (n : nat) (s : string) : string :=
  match n, s with
  | O, _ => s
  | S n', String _ s' => drop n' s'
  | S _, "" => ""
  end.

(** What follows the first occurrence of [p] in [s]. *)
Fixpoint after_first (p s : string) : option string :=
  if String.prefix p s then Some (drop (String.length p) s)
  else match s with
       | "" => None
       | String _ s' => after_first p s'
       end.

(** What precedes the last occurrence of [q] in [s]. *)
Fixpoint before_last (q s : string) : option string :=
  match s with
  | "" => if String.prefix q "" then Some "" else None
  | String c s' =>
      match before_last q s' with
      | Some b => Some (String c b)
      | None => if String.prefix q s then Some "" else None
      end
  end.

End Scan.

(** [INITIAL_STATE_PATTERN] is [window\.__INITIAL_STATE__=([\s|\S]+);\(function]:
    the first opening text that is followed, after at least one character,
    by a closing text; the group is greedy and runs to the last closing
    text. *)
Definition INITIAL_STATE_open : string := "window.__INITIAL_STATE__=".
Definition INITIAL_STATE_close : string := ";(function".

Definition get_initial_state (html_content : string) : string :=
  match Scan.after_first INITIAL_STATE_open html_content with
  | Some (String c rest) =>
      match Scan.before_last INITIAL_STATE_close rest with
      | Some body => String c body      (* [match.group(1)] *)
      | None => ""
      end
  | _ => ""
  end.

(** ** The stages: audio extraction, splitting, transcription *)

(** The calls a stage makes to the libraries it drives, with their
    arguments. *)
Inductive stage_call (Audio : Type) :=
| CallMakedirs (path : string)
| CallFfmpeg (input output : string)
| CallFromMp3 (path : string)
| CallExport (chunk : Audio) (path : string)
| CallTranscribe (chunk_path initial_prompt : string)
| CallWrite (path text : string).
Arguments CallMakedirs {Audio} path.
Arguments CallFfmpeg {Audio} input output.
Arguments CallFromMp3 {Audio} path.
Arguments CallExport {Audio} chunk path.
Arguments CallTranscribe {Audio} chunk_path initial_prompt.
Arguments CallWrite {Audio} path text.

(** [range(a, b, step)] for a positive [step]. *)
Definition py_range_step (a b step : Z) : list Z :=
  (λ k, a + step * k)
    <$> seqZ 0 (if bool_decide (a < b) then (b - a - 1) `div` step + 1 else 0).

(** [enumerate(l)] *)
Fixpoint enumerate_from {A} (i : Z) (l : list A) : list (Z * A) :=
  match l with
  | [] => []
  | x :: l' => (i, x) :: enumerate_from (i + 1) l'
  end.

Definition chunk_length : Z := 45000.

Section Stages.

(** The audio of pydub, its length in milliseconds and its slices. *)
Variable Audio : Type.
Variable audio_len : Audio → Z.
Variable audio_slice : Audio → Z → Z → Audio.

(** The libraries: what they do to the world and what they return or raise
    is left open. *)
Variable makedirs : string → M World unit.
Variable ffmpeg_run : string → string → M World unit.
Variable from_mp3 : string → M World Audio.
Variable export : Audio → string → M World unit.
Variable model_transcribe : string → string → M World string.
Variable write_text : string → string → M World unit.

(** The state of a stage: the world and the record of the calls. *)
Definition Stage : Type := World * list (stage_call Audio).

Definition note (c : stage_call Audio) : M Stage unit :=
  modify (λ st : Stage, (st.1, st.2 ++ [c])).

Definition extract_audio (video_path title video_id : string) : M Stage string :=
  let audio_dir := "bilibili_video/" +:+ title +:+ "/conv" in
  note (CallMakedirs audio_dir) ;;
  on_fst (makedirs audio_dir) ;;
  let audio_path := audio_dir +:+ "/" +:+ video_id +:+ ".mp3" in
  ex <- on_fst (path_exists audio_path) ;;
  if ex : bool then
    on_fst (print ("音频已存在：" +:+ audio_path)) ;;
    ret audio_path
  else
    note (CallFfmpeg video_path audio_path) ;;
    on_fst (ffmpeg_run video_path audio_path) ;;
    on_fst (print ("音频提取完成：" +:+ audio_path)) ;;
    ret audio_path.

(** The loop of [split_audio]; [chunks] is the list built so far. *)
Fixpoint export_chunks (slice_dir : string) (audio : Audio) (plan : list (Z * Z))
    (chunks : list string) : M Stage (list string) :=
  match plan with
  | [] => ret chunks
  | (i, chunk_start) :: rest =>
      let chunk := audio_slice audio chunk_start (chunk_start + chunk_length) in
      let chunk_path := slice_dir +:+ "/" +:+ PyStr.str i +:+ ".mp3" in
      note (CallExport chunk chunk_path) ;;
      on_fst (export chunk chunk_path) ;;
      export_chunks slice_dir audio rest (chunks ++ [chunk_path])
  end.

Definition split_audio (audio_path title video_id : string)
    : M Stage (list string) :=
  let slice_dir := "bilibili_video/" +:+ title +:+ "/slice/" +:+ video_id in
  note (CallMakedirs slice_dir) ;;
  on_fst (makedirs slice_dir) ;;
  note (CallFromMp3 audio_path) ;;
  audio <- on_fst (from_mp3 audio_path) ;;
  export_chunks slice_dir audio
    (enumerate_from 0 (py_range_step 0 (audio_len audio) chunk_length)) [].

(** The loop of [transcribe_audio]; [texts] is the list built so far.  The
    progress bar of tqdm goes to the error stream and is left out. *)
Fixpoint transcribe_chunks (initial_prompt : string) (audio_chunks : list string)
    (texts : list string) : M Stage (list string) :=
  match audio_chunks with
  | [] => ret texts
  | chunk_path :: rest =>
      note (CallTranscribe chunk_path initial_prompt) ;;
      result_text <- on_fst (model_transcribe chunk_path initial_prompt) ;;
      let text := PyStr.strip result_text in
      on_fst (print ("转换结果：" +:+ text)) ;;
      transcribe_chunks initial_prompt rest (texts ++ [text])
  end.

Definition transcribe_audio (audio_chunks : list string) (title video_id : string)
    : M Stage string :=
  let output_dir := "bilibili_video/" +:+ title +:+ "/outputs" in
  note (CallMakedirs output_dir) ;;
  on_fst (makedirs output_dir) ;;
  let output_path := output_dir +:+ "/" +:+ video_id +:+ ".txt" in
  let initial_prompt := "以下是普通话的句子。这是一个关于" +:+ title +:+ "的视频。" in
  texts <- transcribe_chunks initial_prompt audio_chunks [] ;;
  note (CallWrite output_path (String.concat PyStr.nl texts)) ;;
  on_fst (write_text output_path (String.concat PyStr.nl texts)) ;;
  on_fst (print ("文本转换完成：" +:+ output_path)) ;;
  ret output_path.

End Stages.

(** The chunk paths a record of calls transcribes, in order, and the texts
    it writes. *)
Definition transcribed {Audio} (calls : list (stage_call Audio)) : list string :=
  omap (λ c, match c with CallTranscribe p _ => Some p | _ => None end) calls.

Definition exported {Audio} (calls : list (stage_call Audio)) : list (Audio * string) :=
  omap (λ c, match c with CallExport a p => Some (a, p) | _ => None end) calls.

Definition written {Audio} (calls : list (stage_call Audio)) : list (string * string) :=
  omap (λ c, match c with CallWrite p t => Some (p, t) | _ => None end) calls.

(** ** Notions used to state the properties *)

(** The world after [out] has been written to the console. *)
Definition emit (out : list string) (w : World) : World :=
  with_stdout (λ o, o ++ out) w.

(** A line as [print] writes it. *)
Definition line (s : string) : string := s +:+ PyStr.nl.

(** The ledger of a collection as the files of [w] give it. *)
Definition load_set (w : World) (collection_id : string) : gset pykey :=
  match fs w !! progress_file collection_id with
  | Some (JsonDoc j) =>
      match py_set j with
      | Ok s => s
      | Raise _ => ∅
      end
  | _ => ∅
  end.

(** A set of strings as a ledger. *)
Definition str_set (ids : gset string) : gset pykey := set_map KStr ids.

(** The flattened list of the episodes, section after section. *)
Definition all_episodes (sections : list Section_) : list Episode :=
  concat (sec_episodes <$> sections).

Definition has_video_id (episode : Episode) : Prop := episode_bvid episode ≠ "".

Definition in_ledger (ledger : gset pykey) (episode : Episode) : Prop :=
  KStr (episode_bvid episode) ∈ ledger.

Global Instance has_video_id_dec episode : Decision (has_video_id episode).
Proof. unfold has_video_id. apply _. Defined.

Global Instance in_ledger_dec ledger episode : Decision (in_ledger ledger episode).
Proof. unfold in_ledger. apply _. Defined.

(** The episodes that can be selected: those with a video id. *)
Definition selectable (sections : list Section_) : list Episode :=
  filter has_video_id (all_episodes sections).

(** The world in which the operator's choice has been read. *)
Definition at_menu (data : Data) (w : World) : World := (ask_choice data w).2.

(** The notices of choices 1 and 3: one line for each episode of the list
    that the ledger holds, in order. *)
Definition skip_lines (ledger : gset pykey) (bvids : list string) : list string :=
  (λ b, line (skip_notice b)) <$> filter (λ b, KStr b ∈ ledger) bvids.

(** Example data: episodes with and without a video id. *)
Definition episode_of (t b : string) : Episode :=
  {| ep_title := Some t; ep_long_title := None; ep_bvid := Some b; ep_aid := None |}.

Definition episode_without_id (t : string) : Episode :=
  {| ep_title := Some t; ep_long_title := None; ep_bvid := None; ep_aid := None |}.

Definition collection_of (cid : string) (sections : list (list Episode)) : Data :=
  {| data_bvid := Some cid;
     data_ugc_season :=
       Some {| season_title := Some "合集";
               season_sections :=
                 (λ eps, {| sec_title := None; sec_episodes := eps |}) <$> sections |} |}.

(** A world with the given ledger of strings for collection [cid] (none when
    [ledger] is [None]) and the given lines of input. *)
Definition world_of (cid : string) (ledger : option (list string)) (lines : list string)
    : World :=
  {| fs := match ledger with
           | Some ids => {[ progress_file cid := JsonDoc (JArr (JStr <$> ids)) ]}
           | None => ∅
           end;
     readonly := ∅; web := []; stdin := lines; stdout := [] |}.

(** Choice 1 as the specification words it: every episode but those of the
    ledger. *)
Definition all_excludes_exactly_ledger (py_int : string → option Z)
    (data : Data) (w : World) : Prop :=
  ∀ rest, stdin w = "1" :: rest →
    (process_collection py_int data w).1
    = Ok (episode_info <$>
            filter (λ ep, ¬ in_ledger (load_set w (data_collection_id data)) ep)
                   (all_episodes (data_sections data))).

(** The dictionaries of the selectable episodes, in order: [all_videos] of
    choice 3. *)
Definition selectable_videos (sections : list Section_) : list video_info :=
  episode_info <$> selectable sections.

(** The inclusive slice from position [s] to position [e], counted from 1. *)
Definition slice {A} (s e : Z) (l : list A) : list A :=
  take (Z.to_nat (e - s + 1)) (drop (Z.to_nat (s - 1)) l).

Definition not_in_ledger (ledger : gset pykey) (video : video_info) : Prop :=
  KStr (bvid video) ∉ ledger.

Global Instance not_in_ledger_dec ledger video : Decision (not_in_ledger ledger video).
Proof. unfold not_in_ledger. apply _. Defined.

(** What choice 3 writes before it answers: the prompt of the range. *)
Definition range_prompt : list string :=
  [line (PyStr.nl +:+ "请输入下载区间的起始和结束序号（如：1,10）："); "> "].

Definition range_error (n : nat) : string :=
  "无效的区间范围，请输入1到" +:+ PyStr.str (Z.of_nat n) +:+ "之间的数字".

Definition format_error : string :=
  "输入格式错误，请按照" +:+ PyStr.dquote +:+ "起始序号,结束序号"
  +:+ PyStr.dquote +:+ "的格式输入".

(** Choice 3 as the specification words it: positions in the flattened list
    of all episodes. *)
Definition range_over_all_episodes (py_int : string → option Z)
    (data : Data) (w : World) : Prop :=
  ∀ text rest s e,
    stdin w = "3" :: text :: rest →
    unpack_two_ints py_int (PyStr.split_comma (PyStr.strip text)) = Ok (s, e) →
    1 ≤ s ∧ s ≤ e ∧ e ≤ Z.of_nat (length (all_episodes (data_sections data))) →
    (process_collection py_int data w).1
    = Ok (episode_info <$>
            filter (λ ep, ¬ in_ledger (load_set w (data_collection_id data)) ep)
                   (slice s e (all_episodes (data_sections data)))).

(** The entries choice 2 puts into [video_map], in the order of the
    assignments: for each video its position, then its video id. *)
Fixpoint insertions (index : Z) (videos : list video_info)
    : list (string * video_info) :=
  match videos with
  | [] => []
  | video :: rest =>
      (PyStr.str index, video) :: (bvid video, video) :: insertions (index + 1) rest
  end.

(** [video_map[k] = v] *)
Definition assign (video_map : gmap string video_info) (kv : string * video_info)
    : gmap string video_info :=
  <[kv.1 := kv.2]> video_map.

(** What choice 2 writes: its prompt. *)
Definition ids_prompt : list string :=
  [line (PyStr.nl +:+ "请输入要下载的视频序号或BV号（多个用逗号分隔）："); "> "].

(** The selection as a function of the operator's lines, the ledger and the
    metadata alone. *)
Definition selection_of_inputs (py_int : string → option Z) (ledger : gset pykey)
    (sections : list Section_) (lines : list string) : result (list video_info) :=
  let eof := Raise (Exn EOFError "EOF when reading a line") in
  match lines with
  | [] => eof
  | choice :: rest =>
      if String.eqb choice "1" then
        Ok (episode_info <$>
              filter (λ ep, ¬ in_ledger ledger ep ∧ has_video_id ep)
                     (all_episodes sections))
      else if String.eqb choice "2" then
        match rest with
        | [] => eof
        | text :: _ =>
            Ok (omap (λ token, build_video_map sections !! token) (tokens_of text))
        end
      else if String.eqb choice "3" then
        match rest with
        | [] => eof
        | text :: _ =>
            match unpack_two_ints py_int (PyStr.split_comma (PyStr.strip text)) with
            | Raise _ => Ok []
            | Ok (s, e) =>
                if bool_decide (1 ≤ s ∧ s ≤ e
                                ∧ e ≤ Z.of_nat (length (selectable_videos sections)))
                then Ok (filter (not_in_ledger ledger)
                                (slice s e (selectable_videos sections)))
                else Ok []
            end
        end
      else Ok []
  end.

(** [w'] differs from [w] by what has been written to the console and by
    the lines of input that have been read. *)
Definition console_only (w w' : World) : Prop :=
  fs w' = fs w ∧ readonly w' = readonly w ∧ web w' = web w
  ∧ (∃ out, stdout w' = stdout w ++ out)
  ∧ (∃ used, stdin w = used ++ stdin w').

(** The sets handed to [_save_progress] after [current] grow: each one
    contains the one before it, the first one contains [current], and the
    ledger is not loaded again. *)
Fixpoint grows_from (current : gset pykey) (trace : list event) : Prop :=
  match trace with
  | [] => True
  | EvSave _ saved :: rest => current ⊆ saved ∧ grows_from saved rest
  | EvLoad _ _ :: _ => False
  | _ :: rest => grows_from current rest
  end.

(** The record of a run of [process_video]: nothing; or events without a
    load and without a save (no collection); or the load of the ledger of
    [collection_id] followed by saves for the same collection that grow from
    what was loaded. *)
Definition only_for (collection_id : string) (e : event) : Prop :=
  match e with
  | EvSave c _ | EvLoad c _ => c = collection_id
  | _ => True
  end.

Definition ledger_only_grows (trace : list event) : Prop :=
  ∃ collection_id, Forall (only_for collection_id) trace ∧
    (grows_from ∅ trace ∧ (∀ c s, EvSave c s ∉ trace)
     ∨ ∃ loaded rest, trace = EvLoad collection_id loaded :: rest
                      ∧ grows_from loaded rest).

(** What the loop writes for a video whose transcript exists. *)
Definition skip_existing_text (video : video_info) : list string :=
  [line (PyStr.nl +:+ "处理视频：" +:+ title video);
   line ("文本文件已存在：" +:+ output_path_of video +:+ "，跳过处理")].

(** The events that record the invocation of a stage. *)
Definition stage_event (e : event) : Prop :=
  match e with
  | EvSave _ _ | EvLoad _ _ => False
  | _ => True
  end.

(** Example stages that succeed: the transcription leaves its text file. *)
Module Demo.

Definition video_api_url (url : string) : option string := None.

Definition download_video (video : video_info) : M World (option string) :=
ret (Some ("bilibili_video/" +:+ title video +:+ "/video/" +:+ bvid video +:+ ".mp4")).

Definition extract_audio (video_path title video_id : string) : M World string :=
ret ("bilibili_video/" +:+ title +:+ "/conv/" +:+ video_id +:+ ".mp3").

Definition split_audio (audio_path title video_id : string) : M World (list string) :=
ret ["bilibili_video/" +:+ title +:+ "/slice/" +:+ video_id +:+ "/0.mp3"].

Definition transcribe_audio (audio_chunks : list string) (title video_id : string)
  : M World string :=
let output_path := "bilibili_video/" +:+ title +:+ "/outputs/" +:+ video_id +:+ ".txt" in
modify (with_fs (<[output_path := NotJson "transcript"]>)) ;;
ret output_path.

Definition data : Data :=
collection_of "BVc" [[episode_of "a" "BV1"; episode_of "b" "BV2"; episode_of "c" "BV3"]].

(** The ledger holds "BV2", the page is fetched twice, the operator
  chooses the whole collection. *)
Definition world : World :=
{| fs := {[ progress_file "BVc" := JsonDoc (JArr [JStr "BV2"]) ]};
   readonly := ∅;
   web := [Page (Some (Some data)); Page (Some (Some data))];
   stdin := ["1"];
   stdout := [] |}.

Definition run : result unit * PV :=
process_video IntAscii.int video_api_url download_video extract_audio split_audio
  transcribe_audio "https://www.bilibili.com/video/BVc" (world, []).

End Demo.

(** Choice 2 as the specification words it: the position and the video id
    of an episode select this episode. *)
Definition position_and_id_interchangeable (sections : list Section_) : Prop :=
  ∀ (j : nat) video,
    selectable_videos sections !! j = Some video →
    build_video_map sections !! PyStr.str (Z.of_nat j + 1) = Some video
    ∧ build_video_map sections !! bvid video = Some video.


(** What [menu] writes. *)
Definition menu_text : list string :=
  [line (PyStr.nl +:+ "请选择下载选项：");
   line "1. 下载整个合集";
   line "2. 选择单个或多个视频";
   line "3. 按区间下载";
   "请输入选项编号 (1/2/3): "].

(** ** The progress ledger: properties *)

Lemma emit_nil w : emit [] w = w.
Proof. destruct w. unfold emit, with_stdout. simpl. by rewrite app_nil_r. Qed.

Lemma emit_emit a b w : emit b (emit a w) = emit (a ++ b) w.
Proof. unfold emit, with_stdout. simpl. by rewrite app_assoc. Qed.

Lemma print_run s w : print s w = (Ok tt, emit [line s] w).
Proof. reflexivity. Qed.

Lemma truthy_true s : PyStr.truthy s = true ↔ s ≠ "".
Proof.
  unfold PyStr.truthy. destruct (String.eqb_spec s ""); simpl; split; congruence.
Qed.

Lemma truthy_false s : PyStr.truthy s = false ↔ s = "".
Proof.
  unfold PyStr.truthy. destruct (String.eqb_spec s ""); simpl; split; congruence.
Qed.

(** Whatever reading the ledger raises is caught by [except Exception]. *)
Lemma read_ledger_raises_Exception cid w e w1 :
  read_ledger cid w = (Raise e, w1) → is_Exception e = true ∧ w1 = w.
Proof.
  unfold read_ledger, bind, read_json, lift_result.
  destruct (fs w !! progress_file cid) as [[msg|msg|j]|]; try (intros [= <- <-]; done).
  destruct j as [| n | s | l | kv]; simpl; try (intros [= <- <-]; done).
  destruct (hashables l) as [ks|e'] eqn:Hl; [done|].
  intros [= <- <-]. split; [|done].
  clear -Hl. revert e' Hl. induction l as [|j l IH]; intros e' Hl; [done|].
  simpl in Hl. destruct j; simpl in Hl;
    try (destruct (hashables l); [done | injection Hl as <-; by eapply IH]);
    by injection Hl as <-.
Qed.

Lemma read_ledger_ok cid w s w1 :
  read_ledger cid w = (Ok s, w1) → s = load_set w cid ∧ w1 = w.
Proof.
  unfold read_ledger, bind, read_json, lift_result, load_set.
  destruct (fs w !! progress_file cid) as [[msg|msg|j]|]; try done.
  destruct (py_set j); by intros [= <- <-].
Qed.

Lemma load_set_raise cid w e w1 :
  read_ledger cid w = (Raise e, w1) → load_set w cid = ∅.
Proof.
  unfold read_ledger, bind, read_json, lift_result, load_set.
  destruct (fs w !! progress_file cid) as [[msg|msg|j]|]; try done.
  by destruct (py_set j).
Qed.

(** What [_load_progress] does, in one equation: it never raises, returns
    [load_set] and writes at most the report of the failure. *)
Lemma load_progress_run cid w :
  ∃ out, _load_progress cid w = (Ok (load_set w cid), emit out w).
Proof.
  unfold _load_progress, bind at 1, path_exists.
  destruct (fs w !! progress_file cid) as [f|] eqn:Hf.
  - rewrite bool_decide_eq_true_2 by eauto.
    unfold bind at 1, try_except, bind at 1.
    destruct (read_ledger cid w) as [[s|e] w1] eqn:Hr.
    + apply read_ledger_ok in Hr as [-> ->]. exists []. by rewrite emit_nil.
    + pose proof (load_set_raise _ _ _ _ Hr) as ->.
      apply read_ledger_raises_Exception in Hr as [-> ->].
      by exists [line (load_failure e)].
  - rewrite bool_decide_eq_false_2 by (intros [? ?]; done).
    exists []. rewrite emit_nil. unfold load_set. by rewrite Hf.
Qed.

Lemma load_progress_missing cid w :
  fs w !! progress_file cid = None → _load_progress cid w = (Ok ∅, w).
Proof.
  intros Hf. unfold _load_progress, bind, path_exists. rewrite Hf.
  by rewrite bool_decide_eq_false_2 by (intros [? ?]; done).
Qed.

(** C5.  For every collection id, loading the ledger never raises; it
    returns the empty set when there is no progress file, and when reading
    or decoding the file fails it reports the failure and returns the empty
    set. *)
Theorem load_progress_degrades_to_empty (collection_id : string) (w : World) :
  (∃ s out, _load_progress collection_id w = (Ok s, emit out w)) ∧
  (fs w !! progress_file collection_id = None →
     _load_progress collection_id w = (Ok ∅, w)) ∧
  (∀ e w1, is_Some (fs w !! progress_file collection_id) →
     read_ledger collection_id w = (Raise e, w1) →
     _load_progress collection_id w = (Ok ∅, emit [line (load_failure e)] w)).
Proof.
  split; [|split].
  - destruct (load_progress_run collection_id w) as [out H]. eauto.
  - apply load_progress_missing.
  - intros e w1 Hex Hr. unfold _load_progress, bind at 1, path_exists.
    rewrite bool_decide_eq_true_2 by done.
    unfold bind at 1, try_except, bind at 1. rewrite Hr.
    by apply read_ledger_raises_Exception in Hr as [-> ->].
Qed.

Lemma hashables_key_json ks : hashables (key_json <$> ks) = Ok ks.
Proof.
  induction ks as [|k ks IH]; [done|].
  destruct k; simpl; fold (@fmap list _ _ _ key_json ks); by rewrite IH.
Qed.

Lemma py_set_json_of_set (s : gset pykey) : py_set (json_of_set s) = Ok s.
Proof.
  unfold json_of_set. simpl. rewrite hashables_key_json.
  f_equal. apply list_to_set_elements_L.
Qed.

(** After a save whose write goes through, a load gives the saved set and
    changes nothing. *)
Lemma save_then_load cid (s : gset pykey) w :
  (write_json (progress_file cid) (json_of_set s) w).1 = Ok tt →
  ∃ w1, _save_progress cid s w = (Ok tt, w1)
        ∧ fs w1 = <[progress_file cid := JsonDoc (json_of_set s)]> (fs w)
        ∧ stdout w1 = stdout w
        ∧ _load_progress cid w1 = (Ok s, w1).
Proof.
  unfold _save_progress, try_except, write_json.
  destruct (bool_decide (progress_file cid ∈ readonly w)) eqn:Hro; [done|].
  intros _. eexists. split; [done|]. split; [done|]. split; [done|].
  unfold _load_progress, bind at 1, path_exists. simpl.
  rewrite lookup_insert_eq. rewrite bool_decide_eq_true_2 by eauto.
  unfold bind at 1, try_except, bind at 1, read_ledger, bind, read_json. simpl.
  rewrite lookup_insert_eq. unfold lift_result.
  by rewrite py_set_json_of_set.
Qed.

(** C6.  With no progress file a load gives the empty set; and for every
    collection id and every finite set of strings, after a save that
    succeeds (its write does not raise) the next load for the same
    collection id gives back exactly that set. *)
Theorem save_load_roundtrip (collection_id : string) (ids : gset string) (w : World) :
  (write_json (progress_file collection_id) (json_of_set (str_set ids)) w).1 = Ok tt →
  (∀ w0, fs w0 !! progress_file collection_id = None →
         (_load_progress collection_id w0).1 = Ok ∅) ∧
  ∃ w1, _save_progress collection_id (str_set ids) w = (Ok tt, w1) ∧
        (_load_progress collection_id w1).1 = Ok (str_set ids).
Proof.
  intros Hw. split.
  - intros w0 Hf.
    by rewrite load_progress_missing.
  - destruct (save_then_load _ _ _ Hw) as (w1 & Hs & _ & _ & Hl).
    exists w1. by rewrite Hl.
Qed.

(** ** Running the monad *)

Lemma bind_ok {S A B} (m : M S A) (k : A → M S B) s a s' :
  m s = (Ok a, s') → bind m k s = k a s'.
Proof. unfold bind. by intros ->. Qed.

Lemma bind_raise {S A B} (m : M S A) (k : A → M S B) s e s' :
  m s = (Raise e, s') → bind m k s = (Raise e, s').
Proof. unfold bind. by intros ->. Qed.

Lemma bind_ret_snd {S A B} (m : M S A) (b : B) s :
  (bind m (λ _, ret b) s).2 = (m s).2.
Proof. unfold bind, ret. by destruct (m s) as [[a|e] s']. Qed.

Lemma on_fst_print {T} s (st : World * T) :
  on_fst (print s) st = (Ok tt, (emit [line s] st.1, st.2)).
Proof. reflexivity. Qed.

Lemma for_each_app {S A} (l1 l2 : list A) (body : A → M S unit) s s1 :
  for_each l1 body s = (Ok tt, s1) →
  for_each (l1 ++ l2) body s = for_each l2 body s1.
Proof.
  revert s. induction l1 as [|x l1 IH]; intros s; simpl.
  - by intros [= ->].
  - unfold bind. destruct (body x s) as [[[]|e] s2]; [|done]. apply IH.
Qed.

(** ** The listing and the menu only write to the console *)

Lemma show_episodes_run episodes video_index w :
  ∃ out, show_episodes episodes video_index w
         = (Ok (video_index + Z.of_nat (length episodes)), emit out w).
Proof.
  revert video_index w. induction episodes as [|ep eps IH]; intros i w; simpl.
  - exists []. rewrite emit_nil. unfold ret. do 2 f_equal. lia.
  - erewrite bind_ok by apply print_run.
    destruct (IH (i + 1) (emit [line ("[" +:+ PyStr.str i +:+ "] [" +:+ episode_bvid ep
                                       +:+ "] " +:+ episode_title ep)] w)) as [out ->].
    eexists. rewrite emit_emit. do 2 f_equal. lia.
Qed.

Lemma show_sections_run several sections section_index video_index w :
  ∃ out i, show_sections several sections section_index video_index w
           = (Ok i, emit out w).
Proof.
  revert section_index video_index w.
  induction sections as [|sec secs IH]; intros si vi w; simpl.
  - exists [], vi. by rewrite emit_nil.
  - destruct several.
    + erewrite bind_ok by (erewrite bind_ok by apply print_run; apply print_run).
      destruct (show_episodes_run (sec_episodes sec) vi
                  (emit [line (PyStr.times "-" 30)]
                     (emit [line ("第" +:+ PyStr.str si +:+ "部分："
                                  +:+ default "未命名部分" (sec_title sec))] w)))
        as [out1 H1].
      erewrite bind_ok by apply H1.
      erewrite bind_ok by apply print_run.
      edestruct IH as (out2 & i & ->).
      rewrite !emit_emit. eauto.
    + erewrite bind_ok by reflexivity.
      destruct (show_episodes_run (sec_episodes sec) vi w) as [out1 H1].
      erewrite bind_ok by apply H1.
      erewrite bind_ok by reflexivity.
      edestruct IH as (out2 & i & ->).
      rewrite !emit_emit. eauto.
Qed.

Lemma show_collection_run data w :
  ∃ out, show_collection data w = (Ok tt, emit out w).
Proof.
  unfold show_collection.
  do 6 (erewrite bind_ok by apply print_run).
  edestruct show_sections_run as (out & i & H).
  erewrite bind_ok by apply H.
  rewrite print_run, !emit_emit. eauto.
Qed.

Lemma menu_run w choice rest :
  stdin w = choice :: rest →
  menu w = (Ok choice, with_stdin (λ _, rest) (emit menu_text w)).
Proof.
  intros Hin. unfold menu.
  do 4 (erewrite bind_ok by apply print_run).
  unfold input. simpl. rewrite Hin. unfold emit, with_stdin, with_stdout. simpl.
  by rewrite <- !app_assoc.
Qed.

(** The world in which the choice has been read: the files and the network
    are those of the start, the console has grown, one line of input is
    gone. *)
Lemma ask_choice_run data w choice rest :
  stdin w = choice :: rest →
  ask_choice data w = (Ok (load_set w (data_collection_id data), choice), at_menu data w)
  ∧ ∃ out, at_menu data w = with_stdin (λ _, rest) (emit out w).
Proof.
  intros Hin. unfold at_menu, ask_choice.
  destruct (load_progress_run (data_collection_id data) w) as [out1 H1].
  erewrite bind_ok by apply H1.
  destruct (show_collection_run data (emit out1 w)) as [out2 H2].
  erewrite bind_ok by apply H2.
  erewrite bind_ok by (apply menu_run; apply Hin).
  unfold ret. simpl. split; [done|].
  rewrite !emit_emit. eauto.
Qed.

Lemma process_collection_run py_int data w choice rest :
  stdin w = choice :: rest →
  process_collection py_int data w
  = with_selected (select py_int choice (load_set w (data_collection_id data))
                     (data_sections data)) (at_menu data w).
Proof.
  intros Hin. unfold process_collection.
  destruct (ask_choice_run data w choice rest Hin) as [H _].
  by erewrite bind_ok by apply H.
Qed.

(** ** Choice 1: the whole collection *)

Lemma select_all_episodes_run ledger episodes w sel :
  for_each episodes (select_all_episode ledger) (w, sel)
  = (Ok tt,
     (emit (skip_lines ledger (episode_bvid <$> episodes)) w,
      sel ++ (episode_info <$>
                filter (λ ep, ¬ in_ledger ledger ep ∧ has_video_id ep) episodes))).
Proof.
  revert w sel. induction episodes as [|ep eps IH]; intros w sel.
  - simpl. unfold ret. by rewrite emit_nil, app_nil_r.
  - cbn [for_each]. unfold skip_lines. rewrite fmap_cons, !filter_cons.
    unfold select_all_episode at 1.
    destruct (decide (KStr (episode_bvid ep) ∈ ledger)) as [Hin|Hin].
    + rewrite bool_decide_eq_true_2 by done.
      erewrite bind_ok by apply on_fst_print. simpl.
      rewrite IH. rewrite decide_False by (intros [? _]; done).
      unfold skip_lines. by rewrite emit_emit.
    + rewrite bool_decide_eq_false_2 by done.
      destruct (PyStr.truthy (episode_bvid ep)) eqn:Ht.
      * apply truthy_true in Ht.
        erewrite bind_ok by reflexivity. simpl. rewrite IH.
        rewrite decide_True by done. simpl. by rewrite <- app_assoc.
      * apply truthy_false in Ht.
        erewrite bind_ok by reflexivity. rewrite IH.
        rewrite decide_False; [done|]. intros [_ ?]. done.
Qed.

Lemma select_all_run ledger sections w sel :
  select_all ledger sections (w, sel)
  = (Ok tt,
     (emit (skip_lines ledger (episode_bvid <$> all_episodes sections)) w,
      sel ++ (episode_info <$>
                filter (λ ep, ¬ in_ledger ledger ep ∧ has_video_id ep)
                       (all_episodes sections)))).
Proof.
  unfold select_all. revert w sel.
  induction sections as [|sec secs IH]; intros w sel.
  - simpl. unfold ret. by rewrite emit_nil, app_nil_r.
  - cbn [for_each]. erewrite bind_ok by apply select_all_episodes_run.
    rewrite IH. unfold all_episodes, skip_lines. rewrite fmap_cons. simpl.
    rewrite !fmap_app, !filter_app, !fmap_app, emit_emit, app_assoc. done.
Qed.

(** C1 (amended).  With the operator's choice '1', [process_collection]
    returns the episodes of all sections, in section order then episode
    order, leaving out exactly those whose video id is in the loaded ledger
    or is missing, and it writes one notice for each episode whose video id
    is in the ledger, in the same order. *)
Theorem select_all_result (py_int : string → option Z) (data : Data) (w : World)
    (rest : list string) :
  stdin w = "1" :: rest →
  let ledger := load_set w (data_collection_id data) in
  let episodes := all_episodes (data_sections data) in
  process_collection py_int data w
  = (Ok (episode_info <$>
           filter (λ ep, ¬ in_ledger ledger ep ∧ has_video_id ep) episodes),
     emit (skip_lines ledger (episode_bvid <$> episodes)) (at_menu data w)).
Proof.
  intros Hin ledger episodes.
  rewrite (process_collection_run _ _ _ _ _ Hin).
  unfold with_selected, select. simpl.
  erewrite bind_ok by apply select_all_run.
  reflexivity.
Qed.

Lemma select_all_result_witness :
  process_collection IntAscii.int
    (collection_of "BVc" [[episode_of "a" "BV1"; episode_of "b" "BV2"; episode_of "c" "BV3"];
                          [episode_of "d" "BV4"; episode_of "e" "BV5"; episode_of "f" "BV6"]])
    (world_of "BVc" (Some ["BV2"]) ["1"])
  = (Ok (episode_info <$> [episode_of "a" "BV1"; episode_of "c" "BV3"; episode_of "d" "BV4";
                           episode_of "e" "BV5"; episode_of "f" "BV6"]),
     emit [line (skip_notice "BV2")]
       (at_menu (collection_of "BVc"
                   [[episode_of "a" "BV1"; episode_of "b" "BV2"; episode_of "c" "BV3"];
                    [episode_of "d" "BV4"; episode_of "e" "BV5"; episode_of "f" "BV6"]])
                (world_of "BVc" (Some ["BV2"]) ["1"]))).
Proof.
  rewrite (select_all_result IntAscii.int _ (world_of "BVc" (Some ["BV2"]) ["1"]) [] eq_refl).
  vm_compute. reflexivity.
Defined.

(** C1 as worded fails on an episode without a video id: the ledger is
    empty, yet the episode is not returned. *)
Lemma select_all_drops_episode_without_id :
  ¬ all_excludes_exactly_ledger IntAscii.int
      (collection_of "BVc" [[episode_without_id "a"; episode_of "b" "BV2"]])
      (world_of "BVc" None ["1"]).
Proof.
  intros H. specialize (H [] eq_refl). vm_compute in H. discriminate H.
Qed.

(** ** Choice 3: a range of positions *)

Lemma build_all_videos_selectable sections :
  build_all_videos sections = selectable_videos sections.
Proof.
  unfold build_all_videos, selectable_videos, selectable, all_episodes.
  assert (Hin : ∀ eps acc,
    foldl (λ all_videos episode,
             if PyStr.truthy (episode_bvid episode)
             then all_videos ++ [episode_info episode] else all_videos) acc eps
    = acc ++ (episode_info <$> filter has_video_id eps)).
  { induction eps as [|ep eps IH]; intros acc; simpl.
    - by rewrite app_nil_r.
    - rewrite IH, filter_cons. destruct (PyStr.truthy (episode_bvid ep)) eqn:Ht.
      + apply truthy_true in Ht. rewrite decide_True by done.
        by rewrite fmap_cons, <- app_assoc.
      + apply truthy_false in Ht. by rewrite decide_False by (unfold has_video_id; congruence). }
  assert (Hout : ∀ secs acc,
    foldl (λ all_videos section,
             foldl (λ all_videos episode,
                      if PyStr.truthy (episode_bvid episode)
                      then all_videos ++ [episode_info episode] else all_videos)
                   all_videos (sec_episodes section)) acc secs
    = acc ++ (episode_info <$> filter has_video_id (concat (sec_episodes <$> secs)))).
  { induction secs as [|sec secs IH]; intros acc; simpl.
    - by rewrite app_nil_r.
    - rewrite IH, Hin, filter_app, fmap_app, app_assoc. done. }
  apply (Hout sections []).
Qed.

Lemma py_index_nat {A} (l : list A) (k : nat) x :
  l !! k = Some x → py_index l (Z.of_nat k) = Ok x.
Proof.
  intros H. unfold py_index.
  rewrite (bool_decide_eq_false_2 (Z.of_nat k < 0)) by lia.
  rewrite (bool_decide_eq_true_2 (0 ≤ Z.of_nat k)) by lia.
  by rewrite Nat2Z.id, H.
Qed.

Lemma select_range_item_run ledger all_videos (k : nat) v w sel :
  all_videos !! k = Some v →
  select_range_item ledger all_videos (Z.of_nat k) (w, sel)
  = (Ok tt,
     if decide (KStr (bvid v) ∈ ledger)
     then (emit [line (skip_notice (bvid v))] w, sel)
     else (w, sel ++ [v])).
Proof.
  intros Hv. unfold select_range_item.
  erewrite bind_ok by (unfold lift_result; rewrite (py_index_nat _ _ _ Hv); reflexivity).
  destruct (decide (KStr (bvid v) ∈ ledger)) as [Hin|Hin].
  - by rewrite bool_decide_eq_false_2 by (intros ?; done).
  - by rewrite bool_decide_eq_true_2 by done.
Qed.

Lemma select_range_items_run ledger all_videos n k w sel :
  (k + n ≤ length all_videos)%nat →
  for_each (seqZ (Z.of_nat k) (Z.of_nat n)) (select_range_item ledger all_videos) (w, sel)
  = (Ok tt,
     (emit (skip_lines ledger (bvid <$> take n (drop k all_videos))) w,
      sel ++ filter (not_in_ledger ledger) (take n (drop k all_videos)))).
Proof.
  revert k w sel. induction n as [|n IH]; intros k w sel Hlen.
  - simpl. unfold ret. by rewrite emit_nil, app_nil_r.
  - rewrite seqZ_cons by lia.
    destruct (lookup_lt_is_Some_2 all_videos k) as [v Hv]; [lia|].
    rewrite (drop_S _ _ _ Hv). cbn [take for_each].
    replace (Z.succ (Z.of_nat k)) with (Z.of_nat (S k)) by lia.
    replace (Z.pred (Z.of_nat (S n))) with (Z.of_nat n) by lia.
    erewrite bind_ok by (apply select_range_item_run, Hv).
    unfold skip_lines. rewrite fmap_cons, !filter_cons.
    destruct (decide (KStr (bvid v) ∈ ledger)) as [Hin|Hin].
    + rewrite IH by lia.
      rewrite decide_False by (unfold not_in_ledger; intros ?; done).
      unfold skip_lines. by rewrite emit_emit.
    + rewrite IH by lia.
      rewrite decide_True by done. by rewrite <- app_assoc.
Qed.

Lemma input_run prompt w l rest :
  stdin w = l :: rest →
  input prompt w = (Ok l, with_stdin (λ _, rest) (emit [prompt] w)).
Proof. intros H. unfold input. by rewrite H. Qed.

Lemma input_eof prompt w :
  stdin w = [] →
  input prompt w = (Raise (Exn EOFError "EOF when reading a line"), emit [prompt] w).
Proof. intros H. unfold input. by rewrite H. Qed.

Lemma on_fst_run {S T A} (m : M S A) (s : S) (t : T) r s' :
  m s = (r, s') → on_fst m (s, t) = (r, (s', t)).
Proof. unfold on_fst. simpl. by intros ->. Qed.

Lemma try_ok {S A} (body : M S A) catches handler s a s' :
  body s = (Ok a, s') → try_except body catches handler s = (Ok a, s').
Proof. unfold try_except. by intros ->. Qed.

Lemma try_caught {S A} (body : M S A) catches handler s e s' :
  body s = (Raise e, s') → catches e = true →
  try_except body catches handler s = handler e s'.
Proof. unfold try_except. by intros -> ->. Qed.

Lemma try_uncaught {S A} (body : M S A) catches handler s e s' :
  body s = (Raise e, s') → catches e = false →
  try_except body catches handler s = (Raise e, s').
Proof. unfold try_except. by intros -> ->. Qed.

(** Whatever the unpacking raises is a [ValueError]. *)
Lemma unpack_two_ints_raises py_int pieces e :
  unpack_two_ints py_int pieces = Raise e → is_ValueError_or_IndexError e = true.
Proof.
  unfold unpack_two_ints, int_or_raise.
  destruct pieces as [|a [|b [|c rest]]]; [by intros [= <-]|..];
    repeat (match goal with
            | |- context [py_int ?x] => destruct (py_int x)
            end); by intros [= <-].
Qed.

Section RangeRuns.

Variable py_int : string → option Z.
Variables (ledger : gset pykey) (sections : list Section_).
Variables (w : World) (sel : list video_info).
Variables (text : string) (rest : list string).
Hypothesis Hin : stdin w = text :: rest.

Lemma select_range_valid s e :
  unpack_two_ints py_int (PyStr.split_comma (PyStr.strip text)) = Ok (s, e) →
  1 ≤ s ∧ s ≤ e ∧ e ≤ Z.of_nat (length (selectable_videos sections)) →
  select_range py_int ledger sections (w, sel)
  = (Ok tt,
     (emit (skip_lines ledger (bvid <$> slice s e (selectable_videos sections)))
        (with_stdin (λ _, rest) (emit range_prompt w)),
      sel ++ filter (not_in_ledger ledger) (slice s e (selectable_videos sections)))).
Proof using Hin.
  intros Hu Hv. unfold select_range.
  erewrite bind_ok by apply on_fst_print.
  apply try_ok.
  erewrite bind_ok; last first.
  { erewrite on_fst_run; [reflexivity|]. simpl. by apply input_run. }
  unfold lift_result at 1. erewrite bind_ok by (rewrite Hu; reflexivity).
  simpl. rewrite build_all_videos_selectable.
  rewrite bool_decide_eq_true_2 by done.
  unfold py_range, slice.
  replace (s - 1) with (Z.of_nat (Z.to_nat (s - 1))) at 1 2 by lia.
  replace (e - Z.of_nat (Z.to_nat (s - 1))) with (Z.of_nat (Z.to_nat (e - s + 1))) by lia.
  rewrite select_range_items_run by lia.
  unfold range_prompt. by rewrite !emit_emit.
Qed.

Lemma select_range_invalid s e :
  unpack_two_ints py_int (PyStr.split_comma (PyStr.strip text)) = Ok (s, e) →
  ¬ (1 ≤ s ∧ s ≤ e ∧ e ≤ Z.of_nat (length (selectable_videos sections))) →
  select_range py_int ledger sections (w, sel)
  = (Ok tt,
     (emit [line (range_error (length (selectable_videos sections)))] (with_stdin (λ _, rest) (emit range_prompt w)), sel)).
Proof using Hin.
  intros Hu Hv. unfold select_range.
  erewrite bind_ok by apply on_fst_print.
  apply try_ok.
  erewrite bind_ok; last first.
  { erewrite on_fst_run; [reflexivity|]. simpl. by apply input_run. }
  unfold lift_result at 1. erewrite bind_ok by (rewrite Hu; reflexivity).
  simpl. rewrite build_all_videos_selectable.
  rewrite bool_decide_eq_false_2 by done.
  rewrite on_fst_print. simpl.
  unfold range_prompt, range_error. by rewrite !emit_emit.
Qed.

Lemma select_range_malformed ex :
  unpack_two_ints py_int (PyStr.split_comma (PyStr.strip text)) = Raise ex →
  select_range py_int ledger sections (w, sel)
  = (Ok tt, (emit [line format_error] (with_stdin (λ _, rest) (emit range_prompt w)), sel)).
Proof using Hin.
  intros Hu. unfold select_range.
  erewrite bind_ok by apply on_fst_print.
  erewrite try_caught; last first.
  { by eapply unpack_two_ints_raises. }
  { erewrite bind_ok; last first.
    { erewrite on_fst_run; [reflexivity|]. simpl. by apply input_run. }
    unfold lift_result at 1. erewrite bind_raise by (rewrite Hu; reflexivity).
    reflexivity. }
  rewrite on_fst_print. simpl.
  unfold range_prompt, format_error. by rewrite !emit_emit.
Qed.

End RangeRuns.

Lemma select_range_eof py_int ledger sections w sel :
  stdin w = [] →
  select_range py_int ledger sections (w, sel)
  = (Raise (Exn EOFError "EOF when reading a line"), (emit range_prompt w, sel)).
Proof.
  intros Hin. unfold select_range.
  erewrite bind_ok by apply on_fst_print.
  apply try_uncaught; [|reflexivity].
  erewrite bind_raise; [reflexivity|].
  erewrite on_fst_run; [reflexivity|]. simpl.
  rewrite input_eof by done. unfold range_prompt. by rewrite emit_emit.
Qed.

Lemma at_menu_stdin data w choice rest :
  stdin w = choice :: rest → stdin (at_menu data w) = rest.
Proof.
  intros Hin. destruct (ask_choice_run data w choice rest Hin) as [_ [out ->]]. done.
Qed.

Lemma selectable_videos_length sections :
  (length (selectable_videos sections) ≤ length (all_episodes sections))%nat.
Proof.
  unfold selectable_videos, selectable. rewrite length_fmap. apply length_filter.
Qed.

Lemma slice_length {A} (s e : Z) (l : list A) :
  1 ≤ s ∧ s ≤ e ∧ e ≤ Z.of_nat (length l) →
  Z.of_nat (length (slice s e l)) = e - s + 1.
Proof.
  intros H. unfold slice. rewrite length_take, length_drop. lia.
Qed.

Lemma filter_all {A} (P : A → Prop) `{∀ x, Decision (P x)} (l : list A) :
  Forall P l → filter P l = l.
Proof.
  induction 1 as [|x l Hx Hl IH]; [done|].
  by rewrite filter_cons, decide_True, IH by done.
Qed.

(** C2 (amended).  With the operator's choice '3' and a request (start,
    end) with 1 ≤ start ≤ end ≤ N, where N is the length of the flattened
    list of the episodes that have a video id, [process_collection] returns
    the inclusive slice of that list from position start to position end, in
    order, without the episodes whose video id is in the ledger, and writes
    one notice for each of those; the result has at most end-start+1
    elements, and exactly that many when no episode of the slice is in the
    ledger. *)
Theorem select_range_result (py_int : string → option Z) (data : Data) (w : World)
    (text : string) (rest : list string) (s e : Z) :
  stdin w = "3" :: text :: rest →
  unpack_two_ints py_int (PyStr.split_comma (PyStr.strip text)) = Ok (s, e) →
  let ledger := load_set w (data_collection_id data) in
  let videos := selectable_videos (data_sections data) in
  1 ≤ s ∧ s ≤ e ∧ e ≤ Z.of_nat (length videos) →
  let picked := filter (not_in_ledger ledger) (slice s e videos) in
  process_collection py_int data w
  = (Ok picked,
     emit (skip_lines ledger (bvid <$> slice s e videos))
       (with_stdin (λ _, rest) (emit range_prompt (at_menu data w))))
  ∧ Z.of_nat (length picked) ≤ e - s + 1
  ∧ (Forall (not_in_ledger ledger) (slice s e videos) →
     Z.of_nat (length picked) = e - s + 1).
Proof.
  intros Hin Hu ledger videos Hv picked.
  pose proof (slice_length s e videos Hv) as Hlen.
  split; [|split].
  - rewrite (process_collection_run _ _ _ _ _ Hin).
    unfold with_selected, select. simpl.
    erewrite bind_ok; last first.
    { eapply select_range_valid; [by eapply at_menu_stdin|done..]. }
    reflexivity.
  - unfold picked.
    pose proof (length_filter (not_in_ledger ledger) (slice s e videos)). lia.
  - intros Hall. unfold picked.
    by rewrite filter_all.
Qed.

Lemma select_range_result_witness :
  (process_collection IntAscii.int
     (collection_of "BVc" [[episode_of "a" "BV1"; episode_of "b" "BV2"; episode_of "c" "BV3"];
                           [episode_of "d" "BV4"; episode_of "e" "BV5"; episode_of "f" "BV6"]])
     (world_of "BVc" (Some ["BV2"]) ["3"; "1,3"])).1
  = Ok (episode_info <$> [episode_of "a" "BV1"; episode_of "c" "BV3"]).
Proof.
  pose proof (select_range_result IntAscii.int
     (collection_of "BVc" [[episode_of "a" "BV1"; episode_of "b" "BV2"; episode_of "c" "BV3"];
                           [episode_of "d" "BV4"; episode_of "e" "BV5"; episode_of "f" "BV6"]])
     (world_of "BVc" (Some ["BV2"]) ["3"; "1,3"]) "1,3" [] 1 3 eq_refl eq_refl) as H.
  simpl in H. destruct H as [H _].
  - vm_compute. intuition discriminate.
  - rewrite H. vm_compute. reflexivity.
Defined.

(** C2 as worded, with N the length of the list of all episodes, fails when
    an episode has no video id: the request (1, 2) over two episodes is
    turned down. *)
Lemma select_range_counts_only_episodes_with_id :
  ¬ range_over_all_episodes IntAscii.int
      (collection_of "BVc" [[episode_without_id "a"; episode_of "b" "BV2"]])
      (world_of "BVc" None ["3"; "1,2"]).
Proof.
  intros H. specialize (H "1,2" [] 1 2 eq_refl eq_refl).
  vm_compute in H. specialize (H ltac:(intuition discriminate)). discriminate H.
Qed.

(** C3.  With the operator's choice '3' and an invalid request,
    [process_collection] does not raise, returns the empty list and reports
    an error: the format error when the line does not give two integers, the
    range error when start > end, end > N or start < 1, N being the length
    of the flattened list of all episodes. *)
Theorem select_range_rejects (py_int : string → option Z) (data : Data) (w : World)
    (text : string) (rest : list string) :
  stdin w = "3" :: text :: rest →
  let after_prompt := with_stdin (λ _, rest) (emit range_prompt (at_menu data w)) in
  (∀ ex, unpack_two_ints py_int (PyStr.split_comma (PyStr.strip text)) = Raise ex →
     process_collection py_int data w
     = (Ok [], emit [line format_error] after_prompt))
  ∧ (∀ s e, unpack_two_ints py_int (PyStr.split_comma (PyStr.strip text)) = Ok (s, e) →
       s > e ∨ e > Z.of_nat (length (all_episodes (data_sections data))) ∨ s < 1 →
       process_collection py_int data w
       = (Ok [],
          emit [line (range_error (length (selectable_videos (data_sections data))))]
               after_prompt)).
Proof.
  intros Hin after_prompt. split.
  - intros ex Hu.
    rewrite (process_collection_run _ _ _ _ _ Hin).
    unfold with_selected, select. simpl.
    erewrite bind_ok; last first.
    { eapply select_range_malformed; [by eapply at_menu_stdin|done]. }
    reflexivity.
  - intros s e Hu Hbad.
    pose proof (selectable_videos_length (data_sections data)).
    rewrite (process_collection_run _ _ _ _ _ Hin).
    unfold with_selected, select. simpl.
    erewrite bind_ok; last first.
    { eapply select_range_invalid; [by eapply at_menu_stdin|done|lia]. }
    reflexivity.
Qed.

Lemma select_range_rejects_witness :
  (process_collection IntAscii.int
     (collection_of "BVc" [[episode_of "a" "BV1"; episode_of "b" "BV2"; episode_of "c" "BV3"];
                           [episode_of "d" "BV4"; episode_of "e" "BV5"; episode_of "f" "BV6"]])
     (world_of "BVc" (Some ["BV2"]) ["3"; "4,10"])).1 = Ok []
  ∧ (process_collection IntAscii.int
       (collection_of "BVc" [[episode_of "a" "BV1"]])
       (world_of "BVc" None ["3"; "one,two"])).1 = Ok [].
Proof.
  split.
  - destruct (select_range_rejects IntAscii.int
       (collection_of "BVc" [[episode_of "a" "BV1"; episode_of "b" "BV2"; episode_of "c" "BV3"];
                             [episode_of "d" "BV4"; episode_of "e" "BV5"; episode_of "f" "BV6"]])
       (world_of "BVc" (Some ["BV2"]) ["3"; "4,10"]) "4,10" [] eq_refl) as [_ H].
    rewrite (H 4 10 eq_refl); [reflexivity|]. right; left. vm_compute. reflexivity.
  - destruct (select_range_rejects IntAscii.int
       (collection_of "BVc" [[episode_of "a" "BV1"]])
       (world_of "BVc" None ["3"; "one,two"]) "one,two" [] eq_refl) as [H _].
    erewrite H; [reflexivity|]. vm_compute. reflexivity.
Defined.

(** ** Choice 2: positions and video ids *)

Lemma insertions_app index l1 l2 :
  insertions index (l1 ++ l2)
  = insertions index l1 ++ insertions (index + Z.of_nat (length l1)) l2.
Proof.
  revert index. induction l1 as [|v l1 IH]; intros index; cbn [app insertions length].
  - by rewrite Z.add_0_r.
  - rewrite IH.
    by replace (index + 1 + Z.of_nat (length l1))
      with (index + Z.of_nat (S (length l1))) by lia.
Qed.

Lemma elem_of_insertions index videos k v :
  (k, v) ∈ insertions index videos ↔
  ∃ j : nat, videos !! j = Some v ∧ (k = PyStr.str (index + Z.of_nat j) ∨ k = bvid v).
Proof.
  revert index. induction videos as [|v0 vs IH]; intros index; simpl.
  - split; [by intros ?%elem_of_nil | by intros (j & ? & _)].
  - rewrite !elem_of_cons, IH. split.
    + intros [[= -> ->]|[[= -> ->]|(j & Hj & Hk)]].
      * exists 0%nat. rewrite Z.add_0_r. auto.
      * exists 0%nat. auto.
      * exists (S j). split; [done|].
        replace (index + Z.of_nat (S j)) with (index + 1 + Z.of_nat j) by lia. done.
    + intros ([|j] & Hj & Hk).
      * injection Hj as ->. rewrite Z.add_0_r in Hk. destruct Hk as [->| ->]; auto.
      * right; right. exists j. split; [done|].
        replace (index + 1 + Z.of_nat j) with (index + Z.of_nat (S j)) by lia. done.
Qed.

Lemma build_video_map_insertions sections :
  build_video_map sections
  = foldl assign ∅ (insertions 1 (selectable_videos sections)).
Proof.
  unfold build_video_map, selectable_videos, selectable, all_episodes.
  assert (Hin : ∀ eps m index,
    foldl map_episode (m, index) eps
    = (foldl assign m (insertions index (episode_info <$> filter has_video_id eps)),
       index + Z.of_nat (length (filter has_video_id eps)))).
  { induction eps as [|ep eps IH]; intros m index; simpl.
    - by rewrite Z.add_0_r.
    - rewrite filter_cons. destruct (PyStr.truthy (episode_bvid ep)) eqn:Ht.
      + apply truthy_true in Ht. rewrite decide_True by done.
        rewrite IH. simpl. f_equal. lia.
      + apply truthy_false in Ht.
        rewrite decide_False by (unfold has_video_id; congruence). apply IH. }
  assert (Hout : ∀ secs m index,
    (foldl (λ acc section, foldl map_episode acc (sec_episodes section)) (m, index) secs).1
    = foldl assign m
        (insertions index (episode_info <$> filter has_video_id (concat (sec_episodes <$> secs))))).
  { induction secs as [|sec secs IH]; intros m index; simpl; [done|].
    rewrite Hin, IH, filter_app, fmap_app, insertions_app, foldl_app.
    by rewrite length_fmap. }
  apply Hout.
Qed.

(** A key assigned several times keeps the value assigned last. *)
Lemma foldl_assign_lookup (l : list (string * video_info)) m k :
  foldl assign m l !! k
  = match last (filter (λ kv, kv.1 = k) l) with
    | Some kv => Some kv.2
    | None => m !! k
    end.
Proof.
  revert m. induction l as [|[k0 v0] l IH]; intros m; [done|].
  simpl. rewrite IH, filter_cons. simpl. unfold assign at 1. simpl.
  destruct (decide (k0 = k)) as [->|Hne].
  - destruct (filter (λ kv, kv.1 = k) l) as [|kv fl] eqn:Hf; simpl.
    + by rewrite lookup_insert_eq.
    + by destruct (last (kv :: fl)) eqn:Hl; [|by apply last_None in Hl].
  - destruct (last (filter (λ kv, kv.1 = k) l)); [done|].
    by rewrite lookup_insert_ne.
Qed.

Lemma foldl_assign_notin (l : list (string * video_info)) m k :
  k ∉ l.*1 → foldl assign m l !! k = m !! k.
Proof.
  revert m. induction l as [|[k0 v0] l IH]; intros m Hk; [done|].
  simpl in *. apply not_elem_of_cons in Hk as [Hne Hk].
  rewrite IH by done. unfold assign. simpl. by rewrite lookup_insert_ne.
Qed.

Lemma foldl_assign_is_Some (l : list (string * video_info)) m k :
  is_Some (foldl assign m l !! k) ↔ is_Some (m !! k) ∨ k ∈ l.*1.
Proof.
  revert m. induction l as [|[k0 v0] l IH]; intros m; simpl.
  - rewrite elem_of_nil. tauto.
  - rewrite IH, elem_of_cons. unfold assign. simpl.
    rewrite lookup_insert_is_Some.
    destruct (decide (k0 = k)) as [->|Hne]; [tauto|].
    split; [intros [[?|[_ ?]]|?]; auto; done|].
    intros [?|[?|?]]; auto; congruence.
Qed.

Lemma select_tokens_run (video_map : gmap string video_info) tokens (w : World) sel :
  for_each tokens (select_token video_map) (w, sel)
  = (Ok tt, (w, sel ++ omap (λ t, video_map !! t) tokens)).
Proof.
  revert sel. induction tokens as [|t ts IH]; intros sel; simpl.
  - unfold ret. by rewrite app_nil_r.
  - unfold select_token at 1. destruct (video_map !! t) as [v|]; simpl.
    + erewrite bind_ok by reflexivity. simpl. rewrite IH. by rewrite <- app_assoc.
    + erewrite bind_ok by reflexivity. by rewrite IH.
Qed.

Lemma select_by_ids_run sections w sel text rest :
  stdin w = text :: rest →
  select_by_ids sections (w, sel)
  = (Ok tt,
     (with_stdin (λ _, rest) (emit ids_prompt w),
      sel ++ omap (λ t, build_video_map sections !! t) (tokens_of text))).
Proof.
  intros Hin. unfold select_by_ids.
  erewrite bind_ok by apply on_fst_print.
  erewrite bind_ok; last first.
  { erewrite on_fst_run; [reflexivity|]. simpl. by apply input_run. }
  rewrite select_tokens_run. unfold ids_prompt. by rewrite emit_emit.
Qed.

Lemma select_by_ids_eof sections w sel :
  stdin w = [] →
  select_by_ids sections (w, sel)
  = (Raise (Exn EOFError "EOF when reading a line"), (emit ids_prompt w, sel)).
Proof.
  intros Hin. unfold select_by_ids.
  erewrite bind_ok by apply on_fst_print.
  erewrite bind_raise; [reflexivity|].
  erewrite on_fst_run; [reflexivity|]. simpl.
  rewrite input_eof by done. unfold ids_prompt. by rewrite emit_emit.
Qed.

Lemma insertions_keys index videos k :
  k ∈ (insertions index videos).*1 ↔
  ∃ (j : nat) v, videos !! j = Some v
                 ∧ (k = PyStr.str (index + Z.of_nat j) ∨ k = bvid v).
Proof.
  rewrite list_elem_of_fmap. split.
  - intros ([k' v] & -> & Hin). apply elem_of_insertions in Hin as (j & ? & ?). eauto.
  - intros (j & v & Hj & Hk). exists (k, v). split; [done|].
    apply elem_of_insertions. eauto.
Qed.

(** The entry of a video is found under both its keys when no later
    assignment uses one of them. *)
Lemma video_map_hit videos (j : nat) v :
  videos !! j = Some v →
  (∀ (j' : nat) v', (j < j')%nat → videos !! j' = Some v' →
     bvid v' ≠ bvid v ∧ bvid v' ≠ PyStr.str (Z.of_nat j + 1)
     ∧ PyStr.str (Z.of_nat j' + 1) ≠ bvid v) →
  foldl assign ∅ (insertions 1 videos) !! PyStr.str (Z.of_nat j + 1) = Some v
  ∧ foldl assign ∅ (insertions 1 videos) !! bvid v = Some v.
Proof.
  intros Hj Hlater.
  rewrite <- (take_drop_middle _ _ _ Hj) at 1 2.
  rewrite !insertions_app, !foldl_app. cbn [insertions foldl].
  assert (Hlen : length (take j videos) = j).
  { apply length_take_le. apply lookup_lt_Some in Hj. lia. }
  rewrite Hlen.
  assert (Hnot : ∀ k, (k = PyStr.str (Z.of_nat j + 1) ∨ k = bvid v) →
            k ∉ (insertions (1 + Z.of_nat j + 1) (drop (S j) videos)).*1).
  { intros k Hk (j0 & v' & Hj0 & Hk')%insertions_keys.
    rewrite lookup_drop in Hj0.
    destruct (Hlater (S j + j0)%nat v' ltac:(lia) Hj0) as (H1 & H2 & H3).
    destruct Hk as [->| ->], Hk' as [Hk'|Hk']; try congruence.
    - apply (inj pretty) in Hk'. lia.
    - apply H3. rewrite Hk'. unfold PyStr.str. f_equal. lia. }
  rewrite !foldl_assign_notin by (apply Hnot; auto).
  unfold assign. simpl. replace (1 + Z.of_nat j) with (Z.of_nat j + 1) by lia.
  split; [|by rewrite lookup_insert_eq].
  destruct (decide (bvid v = PyStr.str (Z.of_nat j + 1))) as [->|Hne].
  - by rewrite lookup_insert_eq.
  - by rewrite lookup_insert_ne, lookup_insert_eq.
Qed.

(** C4 (amended).  With the operator's choice '2', [process_collection]
    builds a table whose keys are, for every episode that has a video id,
    its position among those episodes (from 1, in decimal) and its video
    id; it returns, for each token of the operator's line in order, the
    entry of the token when the table has one, drops the other tokens
    without a message, keeps repeated tokens and does not read the ledger.
    When the video ids are pairwise distinct and none of them is the
    position of an episode, the position and the video id of an episode
    select this episode. *)
Theorem select_by_ids_result (py_int : string → option Z) (data : Data) (w : World)
    (text : string) (rest : list string) :
  stdin w = "2" :: text :: rest →
  let videos := selectable_videos (data_sections data) in
  let video_map := build_video_map (data_sections data) in
  process_collection py_int data w
  = (Ok (omap (λ token, video_map !! token) (tokens_of text)),
     with_stdin (λ _, rest) (emit ids_prompt (at_menu data w)))
  ∧ (∀ k, is_Some (video_map !! k) ↔
          ∃ (j : nat) v, videos !! j = Some v
                         ∧ (k = PyStr.str (Z.of_nat j + 1) ∨ k = bvid v))
  ∧ (NoDup (bvid <$> videos) →
     (∀ j : nat, (j < length videos)%nat →
                 PyStr.str (Z.of_nat j + 1) ∉ bvid <$> videos) →
     ∀ (j : nat) v, videos !! j = Some v →
       video_map !! PyStr.str (Z.of_nat j + 1) = Some v
       ∧ video_map !! bvid v = Some v).
Proof.
  intros Hin videos video_map. split; [|split].
  - rewrite (process_collection_run _ _ _ _ _ Hin).
    unfold with_selected, select. simpl.
    erewrite bind_ok; last first.
    { eapply select_by_ids_run. by eapply at_menu_stdin. }
    reflexivity.
  - intros k. unfold video_map. rewrite build_video_map_insertions.
    rewrite foldl_assign_is_Some, insertions_keys.
    rewrite lookup_empty, is_Some_alt.
    split; [intros [[]|(j & v & ? & Hk)] | intros (j & v & ? & Hk); right];
      exists j, v; (split; [done|]);
      by replace (Z.of_nat j + 1) with (1 + Z.of_nat j) in * by lia.
  - unfold video_map. rewrite build_video_map_insertions.
    fold videos. clearbody videos. clear video_map.
    intros Hnodup Hpos j v Hj. apply video_map_hit; [done|].
    intros j' v' Hlt Hj'.
    assert (Hb : (bvid <$> videos) !! j = Some (bvid v)) by by rewrite list_lookup_fmap, Hj.
    assert (Hb' : (bvid <$> videos) !! j' = Some (bvid v')) by by rewrite list_lookup_fmap, Hj'.
    split; [|split].
    + intros Heq. rewrite Heq in Hb'.
      pose proof (NoDup_lookup _ _ _ _ Hnodup Hb Hb'). lia.
    + intros Heq. apply (Hpos j); [by eapply lookup_lt_Some|].
      rewrite <- Heq. by eapply list_elem_of_lookup_2.
    + intros Heq. apply (Hpos j'); [by eapply lookup_lt_Some|].
      rewrite Heq. by eapply list_elem_of_lookup_2.
Qed.

Lemma select_by_ids_result_witness :
  (process_collection IntAscii.int
     (collection_of "BVc" [[episode_of "a" "BV1"; episode_of "b" "BV2"];
                           [episode_of "c" "BV3"]])
     (world_of "BVc" (Some ["BV2"]) ["2"; " 2， BV3,zz, BV2 "])).1
  = Ok (episode_info <$> [episode_of "b" "BV2"; episode_of "c" "BV3"; episode_of "b" "BV2"])
  ∧ build_video_map
      (data_sections (collection_of "BVc" [[episode_of "a" "BV1"; episode_of "b" "BV2"];
                                           [episode_of "c" "BV3"]]))
    !! PyStr.str (Z.of_nat 1 + 1) = Some (episode_info (episode_of "b" "BV2"))
  ∧ build_video_map
      (data_sections (collection_of "BVc" [[episode_of "a" "BV1"; episode_of "b" "BV2"];
                                           [episode_of "c" "BV3"]]))
    !! "BV2" = Some (episode_info (episode_of "b" "BV2")).
Proof.
  destruct (select_by_ids_result IntAscii.int
     (collection_of "BVc" [[episode_of "a" "BV1"; episode_of "b" "BV2"];
                           [episode_of "c" "BV3"]])
     (world_of "BVc" (Some ["BV2"]) ["2"; " 2， BV3,zz, BV2 "])
     " 2， BV3,zz, BV2 " [] eq_refl) as (H & _ & Hsame).
  split; [rewrite H; vm_compute; reflexivity|].
  apply (Hsame ltac:(compute_done)
           ltac:(intros [|[|[|j]]] Hj; [compute_done..|simpl in Hj; lia])
           1%nat (episode_info (episode_of "b" "BV2")) eq_refl).
Defined.

(** C4 as worded fails when a video id is also a position: in a collection
    whose first episode has the video id "2", the token "2" selects the
    second episode, not the first. *)
Lemma select_by_ids_position_and_id_differ :
  ¬ position_and_id_interchangeable
      (data_sections (collection_of "BVc" [[episode_of "a" "2"; episode_of "b" "x"]])).
Proof.
  intros H.
  destruct (H 0%nat (episode_info (episode_of "a" "2")) eq_refl) as [_ Hid].
  vm_compute in Hid. discriminate Hid.
Qed.

(** The same on two runs: the token "1" gives the first episode, the token
    "2", its video id, gives the second. *)
Example select_by_ids_collision_runs :
  (process_collection IntAscii.int
     (collection_of "BVc" [[episode_of "a" "2"; episode_of "b" "x"]])
     (world_of "BVc" None ["2"; "1"])).1
  = Ok [episode_info (episode_of "a" "2")]
  ∧ (process_collection IntAscii.int
       (collection_of "BVc" [[episode_of "a" "2"; episode_of "b" "x"]])
       (world_of "BVc" None ["2"; "2"])).1
    = Ok [episode_info (episode_of "b" "x")].
Proof. split; vm_compute; reflexivity. Qed.

(** C9.  The table of choice 2 is the result of assigning, episode after
    episode, first the position and then the video id; a token therefore
    resolves to the entry assigned last under it.  When a video id is the
    position of another episode the two keys collide: in a collection whose
    first episode has the video id "2", the token "2" resolves to the second
    episode only, and in one whose second episode has the video id "1", the
    token "1" resolves to the second episode only. *)
Theorem video_map_last_assignment_wins (sections : list Section_) (k : string) :
  build_video_map sections
  = foldl assign ∅ (insertions 1 (selectable_videos sections))
  ∧ build_video_map sections !! k
    = snd <$> last (filter (λ kv, kv.1 = k)
                           (insertions 1 (selectable_videos sections)))
  ∧ build_video_map
      (data_sections (collection_of "BVc" [[episode_of "a" "2"; episode_of "b" "x"]]))
    !! "2" = Some (episode_info (episode_of "b" "x"))
  ∧ build_video_map
      (data_sections (collection_of "BVc" [[episode_of "a" "x"; episode_of "b" "1"]]))
    !! "1" = Some (episode_info (episode_of "b" "1")).
Proof.
  split; [apply build_video_map_insertions|]. split.
  - rewrite build_video_map_insertions, foldl_assign_lookup.
    by destruct (last _).
  - split; vm_compute; reflexivity.
Qed.

(** ** Selection is a function of its inputs and leaves the files alone *)

Lemma console_only_refl w : console_only w w.
Proof.
  repeat split; [exists []; by rewrite app_nil_r | by exists []].
Qed.

Lemma console_only_trans w1 w2 w3 :
  console_only w1 w2 → console_only w2 w3 → console_only w1 w3.
Proof.
  intros (Hf & Hr & Hw & [o1 Ho1] & [u1 Hu1]) (Hf' & Hr' & Hw' & [o2 Ho2] & [u2 Hu2]).
  repeat split; try congruence.
  - exists (o1 ++ o2). by rewrite Ho2, Ho1, app_assoc.
  - exists (u1 ++ u2). by rewrite Hu1, Hu2, app_assoc.
Qed.

Lemma console_only_emit out w : console_only w (emit out w).
Proof. repeat split; [by exists out | by exists []]. Qed.

Lemma console_only_read w l rest :
  stdin w = l :: rest → console_only w (with_stdin (λ _, rest) w).
Proof.
  intros H. repeat split; [exists []; simpl; by rewrite app_nil_r | by exists [l]].
Qed.

Lemma console_only_read_emit w out l rest :
  stdin w = l :: rest → console_only w (with_stdin (λ _, rest) (emit out w)).
Proof.
  intros H. repeat split; [by exists out | by exists [l]].
Qed.

Lemma menu_eof w :
  stdin w = [] →
  menu w = (Raise (Exn EOFError "EOF when reading a line"), emit menu_text w).
Proof.
  intros Hin. unfold menu.
  do 4 (erewrite bind_ok by apply print_run).
  rewrite input_eof by done. by rewrite !emit_emit.
Qed.

Lemma process_collection_eof py_int data w :
  stdin w = [] →
  ∃ out, process_collection py_int data w
         = (Raise (Exn EOFError "EOF when reading a line"), emit out w).
Proof.
  intros Hin. unfold process_collection, ask_choice.
  destruct (load_progress_run (data_collection_id data) w) as [out1 H1].
  destruct (show_collection_run data (emit out1 w)) as [out2 H2].
  erewrite bind_raise; [|erewrite bind_ok by apply H1; erewrite bind_ok by apply H2;
                          erewrite bind_raise by (by apply menu_eof); reflexivity].
  rewrite !emit_emit. eauto.
Qed.

Lemma at_menu_console_only data w choice rest :
  stdin w = choice :: rest →
  console_only w (at_menu data w) ∧ stdin (at_menu data w) = rest.
Proof.
  intros Hin. destruct (ask_choice_run data w choice rest Hin) as [_ [out ->]].
  split; [by eapply console_only_read_emit | done].
Qed.

(** The result of [process_collection] is [selection_of_inputs] of the
    lines, the ledger and the metadata; the world changes by console output
    and consumed input only. *)
Lemma process_collection_char py_int data w :
  (process_collection py_int data w).1
  = selection_of_inputs py_int (load_set w (data_collection_id data))
      (data_sections data) (stdin w)
  ∧ console_only w (process_collection py_int data w).2.
Proof.
  destruct (stdin w) as [|choice rest] eqn:Hin.
  { destruct (process_collection_eof py_int data w Hin) as [out ->].
    split; [done | apply console_only_emit]. }
  rewrite (process_collection_run _ _ _ _ _ Hin).
  destruct (at_menu_console_only data w choice rest Hin) as [Hm Hrest].
  set (ledger := load_set w (data_collection_id data)).
  set (wm := at_menu data w) in *.
  unfold with_selected, select, selection_of_inputs.
  destruct (String.eqb choice "1").
  { erewrite bind_ok by apply select_all_run. simpl.
    split; [done|]. eapply console_only_trans; [done | apply console_only_emit]. }
  destruct (String.eqb choice "2").
  { destruct rest as [|text rest'].
    - erewrite bind_raise by (by apply select_by_ids_eof). simpl.
      split; [done|]. eapply console_only_trans; [done | apply console_only_emit].
    - erewrite bind_ok by (by eapply select_by_ids_run). simpl.
      split; [done|]. eapply console_only_trans; [done|].
      by eapply console_only_read_emit. }
  destruct (String.eqb choice "3").
  { destruct rest as [|text rest'].
    - erewrite bind_raise by (by apply select_range_eof). simpl.
      split; [done|]. eapply console_only_trans; [done | apply console_only_emit].
    - destruct (unpack_two_ints py_int (PyStr.split_comma (PyStr.strip text)))
        as [[s e]|ex] eqn:Hu.
      + case_bool_decide as Hv.
        * erewrite bind_ok by (by eapply select_range_valid). simpl.
          split; [done|]. eapply console_only_trans; [done|].
          eapply console_only_trans; [by eapply console_only_read_emit|].
          apply console_only_emit.
        * erewrite bind_ok by (by eapply select_range_invalid). simpl.
          split; [done|]. eapply console_only_trans; [done|].
          eapply console_only_trans; [by eapply console_only_read_emit|].
          apply console_only_emit.
      + erewrite bind_ok by (by eapply select_range_malformed). simpl.
        split; [done|]. eapply console_only_trans; [done|].
        eapply console_only_trans; [by eapply console_only_read_emit|].
        apply console_only_emit. }
  erewrite bind_ok by reflexivity. simpl. split; [done|]. done.
Qed.

(** C8.  Two runs of [process_collection] on the same metadata, with the
    same ledger and the same lines of the operator, give the same result;
    and a run leaves the files (the ledger among them) and the network as
    they were: it only writes to the console and reads the operator's
    lines. *)
Theorem process_collection_deterministic (py_int : string → option Z) (data : Data)
    (w1 w2 : World) :
  load_set w1 (data_collection_id data) = load_set w2 (data_collection_id data) →
  stdin w1 = stdin w2 →
  (process_collection py_int data w1).1 = (process_collection py_int data w2).1
  ∧ console_only w1 (process_collection py_int data w1).2
  ∧ load_set (process_collection py_int data w1).2 (data_collection_id data)
    = load_set w1 (data_collection_id data).
Proof.
  intros Hl Hs.
  destruct (process_collection_char py_int data w1) as [H1 Hc1].
  destruct (process_collection_char py_int data w2) as [H2 _].
  split; [by rewrite H1, H2, Hl, Hs|]. split; [done|].
  destruct Hc1 as (Hf & _). unfold load_set. by rewrite Hf.
Qed.

(** ** The loop of [process_video] *)

Lemma save_progress_run cid s w :
  ∃ w', _save_progress cid s w = (Ok tt, w').
Proof.
  unfold _save_progress, try_except, write_json.
  destruct (bool_decide (progress_file cid ∈ readonly w)); simpl; eauto.
Qed.

Lemma grows_from_app_stage current trace tail :
  Forall stage_event trace →
  grows_from current tail → grows_from current (trace ++ tail).
Proof.
  induction 1 as [|e trace He _ IH]; intros Ht; [done|].
  simpl. destruct e; try done; by apply IH.
Qed.

Lemma stage_events_harmless collection_id current trace :
  Forall stage_event trace →
  Forall (only_for collection_id) trace
  ∧ (PyStr.truthy collection_id = false → ∀ c s, EvSave c s ∉ trace)
  ∧ grows_from current trace.
Proof.
  intros H. split; [|split].
  - eapply Forall_impl; [done|]. by intros [].
  - intros _ c s Hin. by eapply Forall_forall in Hin; [|done].
  - rewrite <- (app_nil_r trace). by apply grows_from_app_stage.
Qed.

Lemma stage_events_continue collection_id current trace :
  Forall stage_event trace →
  Forall (only_for collection_id) trace
  ∧ (PyStr.truthy collection_id = false → ∀ c s, EvSave c s ∉ trace)
  ∧ ∀ tail, grows_from current tail → grows_from current (trace ++ tail).
Proof.
  intros H.
  destruct (stage_events_harmless collection_id current trace H) as (? & ? & _).
  repeat split; [done..|]. intros tail. by apply grows_from_app_stage.
Qed.

Lemma grows_from_pointwise current trace (j : nat) c saved :
  grows_from current trace →
  trace !! j = Some (EvSave c saved) →
  current ⊆ saved
  ∧ ∀ i : nat, (i < j)%nat →
      (∀ c' loaded, trace !! i ≠ Some (EvLoad c' loaded))
      ∧ (∀ c' earlier, trace !! i = Some (EvSave c' earlier) → earlier ⊆ saved).
Proof.
  revert current j. induction trace as [|e trace IH]; intros current j Hg Hj; [done|].
  destruct j as [|j].
  - injection Hj as ->. simpl in Hg. split; [by destruct Hg | intros i Hi; lia].
  - simpl in Hj.
    assert (Hnext : ∃ cur', grows_from cur' trace ∧ current ⊆ cur'
                            ∧ (∀ c' loaded, e ≠ EvLoad c' loaded)
                            ∧ (∀ c' earlier, e = EvSave c' earlier → earlier ⊆ cur')).
    { destruct e; simpl in Hg; try done;
        try (exists current; repeat split; [done|done|done|by intros ?? [=]]).
      destruct Hg as [Hsub Hg]. exists saved0. repeat split; try done.
      by intros ?? [= _ ->]. }
    destruct Hnext as (cur' & Hg' & Hsub & Hnl & Hsv).
    destruct (IH cur' j Hg' Hj) as [Hs Hi]. split; [by transitivity cur'|].
    intros [|i] Hlt; simpl.
    + split; [intros c' l [= ->]; by eapply Hnl | intros c' s0 [= ->]].
      specialize (Hsv _ _ eq_refl). by transitivity cur'.
    + apply Hi. lia.
Qed.

Section PipelineProperties.

Variable py_int : string → option Z.
Variable video_api_url : string → option string.
Variable download_video : video_info → M World (option string).
Variable extract_audio : string → string → string → M World string.
Variable split_audio : string → string → string → M World (list string).
Variable transcribe_audio : list string → string → string → M World string.

Abbreviation process_one' :=
(process_one download_video extract_audio split_audio transcribe_audio).
Abbreviation process_each' :=
(process_each download_video extract_audio split_audio transcribe_audio).
Abbreviation process_video' :=
(process_video py_int video_api_url download_video extract_audio split_audio
   transcribe_audio).

(** One iteration adds events to the record; the only load or save among
  them is, at the end, the save of the ledger enlarged by the video, and
  only when [collection_id] is not empty. *)
Lemma process_one_grows collection_id video downloaded_videos (st : PV) :
∃ new, (process_one' collection_id video downloaded_videos st).2.2 = st.2 ++ new
  ∧ Forall (only_for collection_id) new
  ∧ (PyStr.truthy collection_id = false → ∀ c s, EvSave c s ∉ new)
  ∧ match (process_one' collection_id video downloaded_videos st).1 with
    | Ok downloaded_videos' =>
        ∀ tail, grows_from downloaded_videos' tail →
                grows_from downloaded_videos (new ++ tail)
    | Raise _ => grows_from downloaded_videos new
    end.
Proof.
destruct st as [w tr]. unfold process_one.
erewrite bind_ok by apply on_fst_print.
erewrite bind_ok by reflexivity. simpl.
destruct (bool_decide _).
{ erewrite bind_ok by apply on_fst_print. simpl.
  exists []. rewrite app_nil_r. split; [done|].
  by apply stage_events_continue. }
unfold bind, on_fst, log, modify, ret. simpl.
destruct (download_video video _) as [[[video_path|]|ex] w2]; simpl.
2,3: exists [EvDownload video]; split; [done|];
     by first [apply stage_events_continue | apply stage_events_harmless];
        repeat constructor.
destruct (PyStr.truthy video_path); simpl.
2:{ exists [EvDownload video]. split; [done|].
    by apply stage_events_continue; repeat constructor. }
destruct (extract_audio _ _ _ _) as [[audio_path|ex] w3]; simpl.
2:{ eexists [_; _]. rewrite <- !app_assoc. split; [done|].
    by apply stage_events_harmless; repeat constructor. }
destruct (split_audio _ _ _ _) as [[audio_chunks|ex] w4]; simpl.
2:{ eexists [_; _; _]. rewrite <- !app_assoc. split; [done|].
    by apply stage_events_harmless; repeat constructor. }
destruct (transcribe_audio _ _ _ _) as [[output|ex] w5]; simpl.
2:{ eexists [_; _; _; _]. rewrite <- !app_assoc. split; [done|].
    by apply stage_events_harmless; repeat constructor. }
destruct (PyStr.truthy collection_id) eqn:Hcid; simpl.
- destruct (save_progress_run collection_id
              ({[KStr (bvid video)]} ∪ downloaded_videos) w5) as [w6 ->]. simpl.
  eexists [_; _; _; _; _]. rewrite <- !app_assoc.
  split; [reflexivity|]. split; [|split].
  + repeat (apply List.Forall_cons; [done|]). apply List.Forall_nil.
  + congruence.
  + intros tail Htail. simpl. split; [apply union_subseteq_r|done].
- eexists [_; _; _; _]. rewrite <- !app_assoc. split; [done|].
  match goal with
  | |- Forall _ ?l ∧ _ =>
      destruct (stage_events_continue collection_id downloaded_videos l)
        as (H1 & H2 & H3); [by repeat constructor|]
  end.
  split; [done|]. split; [intros _; by apply H2 | done].
Qed.

Lemma process_each_grows collection_id videos downloaded_videos (st : PV) :
∃ new, (process_each' collection_id videos downloaded_videos st).2.2 = st.2 ++ new
  ∧ Forall (only_for collection_id) new
  ∧ (PyStr.truthy collection_id = false → ∀ c s, EvSave c s ∉ new)
  ∧ grows_from downloaded_videos new.
Proof.
revert downloaded_videos st.
induction videos as [|video rest IH]; intros downloaded_videos st.
- exists []. simpl. rewrite app_nil_r. split; [done|].
  by apply (stage_events_harmless collection_id downloaded_videos []).
- cbn [process_each]. unfold bind.
  destruct (process_one_grows collection_id video downloaded_videos st)
    as (new1 & Htr & Hfor & Hno & Hg).
  destruct (process_one' collection_id video downloaded_videos st)
    as [[downloaded_videos'|ex] st1]; simpl in *.
  + destruct (IH downloaded_videos' st1) as (new2 & Htr2 & Hfor2 & Hno2 & Hg2).
    exists (new1 ++ new2). rewrite Htr2, Htr, app_assoc.
    repeat split; [by apply Forall_app| |by apply Hg].
    intros Hc c s [?|?]%elem_of_app; [by eapply Hno | by eapply Hno2].
  + exists new1. done.
Qed.

Lemma process_video_grows url w :
ledger_only_grows (process_video' url (w, [])).2.2.
Proof.
unfold process_video, bind at 1.
destruct (on_fst (extract_video_info _ _ url) (w, [])) as [[videos|ex] st1] eqn:H1.
2:{ unfold on_fst in H1. simpl in H1. destruct (extract_video_info _ _ url w).
    injection H1 as _ <-. simpl. exists "". split; [done|]. left.
    split; [done | by intros ?? ?%elem_of_nil]. }
assert (Hst1 : st1.2 = []).
{ unfold on_fst in H1. simpl in H1. destruct (extract_video_info _ _ url w).
  by injection H1 as _ <-. }
destruct videos as [|video rest].
{ rewrite on_fst_print. simpl. rewrite Hst1. exists "". split; [done|]. left.
  split; [done | by intros ?? ?%elem_of_nil]. }
unfold bind at 1.
destruct (on_fst (check_collection url) st1) as [[cd|ex] st2] eqn:H2.
2:{ unfold on_fst in H2. destruct (check_collection url st1.1).
    injection H2 as _ <-. simpl. rewrite Hst1. exists "". split; [done|]. left.
    split; [done | by intros ?? ?%elem_of_nil]. }
assert (Hst2 : st2.2 = []).
{ unfold on_fst in H2. destruct (check_collection url st1.1).
  injection H2 as _ <-. done. }
set (collection_id := if cd.1 then data_collection_id cd.2 else "").
exists collection_id.
destruct st2 as [w2 tr2]. simpl in Hst2. subst tr2.
destruct (PyStr.truthy collection_id) eqn:Hcid.
- destruct (load_progress_run collection_id w2) as [out Hload].
  erewrite bind_ok; last first.
  { erewrite bind_ok by (by apply on_fst_run).
    erewrite bind_ok by reflexivity. reflexivity. }
  rewrite bind_ret_snd.
  destruct (process_each_grows collection_id (video :: rest)
              (load_set w2 collection_id)
              (emit out w2, [EvLoad collection_id (load_set w2 collection_id)]))
    as (new & Htr & Hfor & _ & Hg).
  simpl in Htr |- *. rewrite Htr.
  split; [by constructor | right; eauto].
- erewrite bind_ok by reflexivity. rewrite bind_ret_snd.
  destruct (process_each_grows collection_id (video :: rest) ∅ (w2, []))
    as (new & Htr & Hfor & Hno & Hg).
  simpl in Htr |- *. rewrite Htr.
  split; [done | left; split; [done | by apply Hno]].
Qed.

End PipelineProperties.

(** C7.  In a run of [process_video], every set handed to
    [_save_progress] comes after the load of the ledger of the same
    collection, contains the set that was loaded and contains every set
    handed to [_save_progress] before it; the ledger is loaded once, at the
    start. *)
Theorem process_video_ledger_only_grows
    (py_int : string → option Z) (video_api_url : string → option string)
    (download_video : video_info → M World (option string))
    (extract_audio : string → string → string → M World string)
    (split_audio : string → string → string → M World (list string))
    (transcribe_audio : list string → string → string → M World string)
    (url : string) (w : World) :
  let trace :=
    (process_video py_int video_api_url download_video extract_audio split_audio
       transcribe_audio url (w, [])).2.2 in
  ∀ (j : nat) c saved,
    trace !! j = Some (EvSave c saved) →
    (∃ loaded, trace !! 0%nat = Some (EvLoad c loaded) ∧ loaded ⊆ saved)
    ∧ ∀ i : nat, (i < j)%nat →
        (∀ c' loaded, trace !! i = Some (EvLoad c' loaded) → i = 0%nat)
        ∧ (∀ c' earlier, trace !! i = Some (EvSave c' earlier) →
             c' = c ∧ earlier ⊆ saved).
Proof.
  intros trace j c saved Hj.
  destruct (process_video_grows py_int video_api_url download_video extract_audio
              split_audio transcribe_audio url w)
    as (cid & Hfor & [[_ Hno]|(loaded & rest & Htr & Hg)]).
  { exfalso. eapply Hno. by eapply list_elem_of_lookup_2. }
  fold trace in Hfor, Htr. rewrite Htr in Hj, Hfor |- *.
  destruct j as [|j]; [done|]. simpl in Hj.
  assert (c = cid) as ->.
  { apply Forall_cons in Hfor as [_ Hfor].
    by eapply Forall_lookup_1 in Hfor; [|done]. }
  destruct (grows_from_pointwise _ _ _ _ _ Hg Hj) as [Hsub Hbefore].
  split; [by exists loaded|].
  intros [|i] Hlt; simpl.
  - split; [done | by intros ?? [=]].
  - destruct (Hbefore i ltac:(lia)) as [Hnl Hsv]. split.
    + intros c' l Hl. by destruct (Hnl c' l).
    + intros c' earlier He. split; [|by eapply Hsv].
      apply Forall_cons in Hfor as [_ Hfor].
      by eapply Forall_lookup_1 in Hfor; [|done].
Qed.

Lemma process_video_ledger_only_grows_witness :
  Demo.run.2.2 !! 10%nat
  = Some (EvSave "BVc" (list_to_set [KStr "BV1"; KStr "BV2"; KStr "BV3"]))
  ∧ Demo.run.2.2 !! 5%nat
    = Some (EvSave "BVc" (list_to_set [KStr "BV1"; KStr "BV2"]))
  ∧ (∃ loaded, Demo.run.2.2 !! 0%nat = Some (EvLoad "BVc" loaded)
               ∧ loaded ⊆ list_to_set [KStr "BV1"; KStr "BV2"; KStr "BV3"])
  ∧ (list_to_set [KStr "BV1"; KStr "BV2"] : gset pykey)
    ⊆ list_to_set [KStr "BV1"; KStr "BV2"; KStr "BV3"].
Proof.
  assert (H10 : Demo.run.2.2 !! 10%nat
    = Some (EvSave "BVc" (list_to_set [KStr "BV1"; KStr "BV2"; KStr "BV3"])))
    by (vm_compute; reflexivity).
  assert (H5 : Demo.run.2.2 !! 5%nat
    = Some (EvSave "BVc" (list_to_set [KStr "BV1"; KStr "BV2"])))
    by (vm_compute; reflexivity).
  destruct (process_video_ledger_only_grows IntAscii.int Demo.video_api_url
              Demo.download_video Demo.extract_audio Demo.split_audio
              Demo.transcribe_audio "https://www.bilibili.com/video/BVc" Demo.world
              10%nat "BVc" _ H10) as [Hload Hbefore].
  split; [exact H10|]. split; [exact H5|]. split; [exact Hload|].
  destruct (Hbefore 5%nat ltac:(lia)) as [_ Hsave].
  exact (proj2 (Hsave _ _ H5)).
Defined.

(** C10.  When the transcript of a video already exists at the expected
    path, the iteration of the loop of [process_video] for this video writes
    its two lines and does nothing else: no stage is invoked, the set of
    downloaded videos is unchanged and [_save_progress] is not called. *)
Theorem process_one_skips_existing_transcript
    (download_video : video_info → M World (option string))
    (extract_audio : string → string → string → M World string)
    (split_audio : string → string → string → M World (list string))
    (transcribe_audio : list string → string → string → M World string)
    (collection_id : string) (video : video_info) (downloaded_videos : gset pykey)
    (w : World) (trace : list event) :
  is_Some (fs w !! output_path_of video) →
  process_one download_video extract_audio split_audio transcribe_audio
    collection_id video downloaded_videos (w, trace)
  = (Ok downloaded_videos, (emit (skip_existing_text video) w, trace)).
Proof.
  intros Hex. unfold process_one.
  erewrite bind_ok by apply on_fst_print.
  erewrite bind_ok by reflexivity. simpl.
  rewrite bool_decide_eq_true_2 by done.
  erewrite bind_ok by apply on_fst_print. simpl.
  unfold ret, skip_existing_text. by rewrite emit_emit.
Qed.

Lemma process_one_skips_existing_transcript_witness :
  process_one Demo.download_video Demo.extract_audio Demo.split_audio
    Demo.transcribe_audio "BVc" (episode_info (episode_of "a" "BV1")) ∅
    (with_fs (<["bilibili_video/a/outputs/BV1.txt" := NotJson "transcript"]>) Demo.world,
     [])
  = (Ok ∅,
     (emit (skip_existing_text (episode_info (episode_of "a" "BV1")))
        (with_fs (<["bilibili_video/a/outputs/BV1.txt" := NotJson "transcript"]>)
           Demo.world),
      [])).
Proof.
  apply process_one_skips_existing_transcript.
  vm_compute. eexists. reflexivity.
Defined.

(** ** Examples for the ledger and for the selection *)

Lemma load_progress_degrades_to_empty_witness :
  _load_progress "BVc" (world_of "BVc" None []) = (Ok ∅, world_of "BVc" None [])
  ∧ _load_progress "BVc"
      {| fs := {[ progress_file "BVc" := NotJson "Expecting value" ]};
         readonly := ∅; web := []; stdin := []; stdout := [] |}
    = (Ok ∅,
       emit [line (load_failure (Exn ValueError "Expecting value"))]
         {| fs := {[ progress_file "BVc" := NotJson "Expecting value" ]};
            readonly := ∅; web := []; stdin := []; stdout := [] |}).
Proof.
  split.
  - apply (load_progress_degrades_to_empty "BVc" (world_of "BVc" None [])).
    reflexivity.
  - eapply (load_progress_degrades_to_empty "BVc").
    + vm_compute. eexists. reflexivity.
    + vm_compute. reflexivity.
Defined.

Lemma save_load_roundtrip_witness :
  (_load_progress "BVc" (world_of "BVc" None [])).1 = Ok ∅
  ∧ ∃ w1, _save_progress "BVc" (str_set {["a"; "b"]}) (world_of "BVc" None [])
          = (Ok tt, w1)
          ∧ (_load_progress "BVc" w1).1 = Ok (str_set {["a"; "b"]}).
Proof.
  destruct (save_load_roundtrip "BVc" {["a"; "b"]} (world_of "BVc" None []))
    as [Hmissing Hround].
  - vm_compute. reflexivity.
  - split; [apply Hmissing; reflexivity | exact Hround].
Defined.

Lemma process_collection_deterministic_witness :
  (process_collection IntAscii.int Demo.data Demo.world).1
  = (process_collection IntAscii.int Demo.data
       {| fs := <["notes.txt" := NotJson "other"]> (fs Demo.world);
          readonly := {["notes.txt"]}; web := [];
          stdin := ["1"]; stdout := ["earlier output"] |}).1.
Proof.
  apply (process_collection_deterministic IntAscii.int Demo.data Demo.world).
  - vm_compute. reflexivity.
  - reflexivity.
Defined.

(** * Further properties of the code *)

(** ** Strings *)

Lemma str_app_cons (a : ascii) (s t : string) : String a s +:+ t = String a (s +:+ t).
Proof. reflexivity. Qed.

Lemma str_app_nil_l (s : string) : "" +:+ s = s.
Proof. reflexivity. Qed.

Lemma str_app_nil_r (s : string) : s +:+ "" = s.
Proof. induction s as [|a s IH]; [done|]. by rewrite str_app_cons, IH. Qed.

Lemma str_app_assoc (s t u : string) : (s +:+ t) +:+ u = s +:+ (t +:+ u).
Proof. induction s as [|a s IH]; [done|]. by rewrite !str_app_cons, IH. Qed.

Lemma str_app_length (s t : string) :
  String.length (s +:+ t) = (String.length s + String.length t)%nat.
Proof. induction s as [|a s IH]; [done|]. rewrite str_app_cons. simpl. by rewrite IH. Qed.


(** ** The ledger: one file for each collection *)


Lemma save_progress_writes cid s w :
  progress_file cid ∉ readonly w →
  _save_progress cid s w
  = (Ok tt, with_fs (<[progress_file cid := JsonDoc (json_of_set s)]>) w).
Proof.
  intros H. unfold _save_progress, try_except, write_json.
  by rewrite bool_decide_eq_false_2.
Qed.

Lemma save_progress_refused cid s w :
  progress_file cid ∈ readonly w →
  _save_progress cid s w
  = (Ok tt, emit [line (save_failure (Exn OSError "Permission denied"))] w).
Proof.
  intros H. unfold _save_progress, try_except, write_json.
  by rewrite bool_decide_eq_true_2.
Qed.

Lemma load_progress_stored cid j s w :
  fs w !! progress_file cid = Some (JsonDoc j) → py_set j = Ok s →
  _load_progress cid w = (Ok s, w).
Proof.
  intros Hf Hs. unfold _load_progress, bind at 1, path_exists.
  rewrite bool_decide_eq_true_2 by (rewrite Hf; eauto).
  unfold bind at 1, try_except, bind at 1, read_ledger, bind, read_json, lift_result.
  by rewrite Hf, Hs.
Qed.



(** X2.  A save replaces the whole record: after two saves for the same
    collection, a load gives the set saved last. *)
Theorem save_progress_overwrites (collection_id : string) (s1 s2 : gset pykey) (w : World) :
  progress_file collection_id ∉ readonly w →
  ∃ w1 w2, _save_progress collection_id s1 w = (Ok tt, w1)
    ∧ _save_progress collection_id s2 w1 = (Ok tt, w2)
    ∧ _load_progress collection_id w2 = (Ok s2, w2).
Proof.
  intros Hro. eexists _, _. split; [by apply save_progress_writes|].
  split; [by apply save_progress_writes|].
  eapply load_progress_stored; [|apply py_set_json_of_set].
  simpl. by rewrite lookup_insert_eq.
Qed.

Lemma save_progress_overwrites_witness :
  ∃ w1 w2,
    _save_progress "BVc" (str_set {["a"; "b"]}) (world_of "BVc" (Some ["z"]) []) = (Ok tt, w1)
    ∧ _save_progress "BVc" (str_set {["c"]}) w1 = (Ok tt, w2)
    ∧ _load_progress "BVc" w2 = (Ok (str_set {["c"]}), w2).
Proof.
  apply (save_progress_overwrites "BVc" _ _ (world_of "BVc" (Some ["z"]) [])).
  compute_done.
Defined.



Lemma hashables_strings ids : hashables (JStr <$> ids) = Ok (KStr <$> ids).
Proof.
  induction ids as [|b ids IH]; [done|].
  cbn. fold (@fmap list _ _ _ JStr ids). by rewrite IH.
Qed.

(** X4.  When the progress file is a JSON array of strings, a load gives
    exactly the listed video ids, whatever their order and however often
    each is listed, and writes nothing. *)
Theorem load_progress_listed_ids (collection_id : string) (ids : list string) (w : World) :
  fs w !! progress_file collection_id = Some (JsonDoc (JArr (JStr <$> ids))) →
  ∃ s, _load_progress collection_id w = (Ok s, w)
       ∧ ∀ k, k ∈ s ↔ ∃ b, k = KStr b ∧ b ∈ ids.
Proof.
  intros Hf. exists (list_to_set (KStr <$> ids)). split.
  - eapply load_progress_stored; [done|]. simpl. by rewrite hashables_strings.
  - intros k. rewrite elem_of_list_to_set, list_elem_of_fmap. naive_solver.
Qed.

Lemma load_progress_listed_ids_witness :
  ∃ s, _load_progress "BVc" (world_of "BVc" (Some ["b"; "a"; "b"]) [])
       = (Ok s, world_of "BVc" (Some ["b"; "a"; "b"]) [])
       ∧ ∀ k, k ∈ s ↔ ∃ b, k = KStr b ∧ b ∈ ["b"; "a"; "b"].
Proof.
  apply (load_progress_listed_ids "BVc" ["b"; "a"; "b"]). reflexivity.
Defined.

(** ** The metadata resolver *)

Lemma with_web_drop_nil out w : web w = [] → emit out w = with_web (drop 1) (emit out w).
Proof. destruct w. simpl. by intros ->. Qed.

Lemma with_web_drop_cons out w r rest :
  web w = r :: rest →
  emit out (with_web (λ _, rest) w) = with_web (drop 1) (emit out w).
Proof. destruct w. simpl. by intros ->. Qed.

Lemma with_web_drop_cons_quiet w r rest :
  web w = r :: rest → with_web (λ _, rest) w = with_web (drop 1) (emit [] w).
Proof. intros H. rewrite <- (with_web_drop_cons [] w r rest H). by rewrite emit_nil. Qed.

Lemma check_collection_run (url : string) (w : World) :
  ∃ answer out,
    check_collection url w = (Ok answer, with_web (drop 1) (emit out w))
    ∧ (length out ≤ 1)%nat.
Proof.
  unfold check_collection, try_except, bind, requests_get.
  destruct (web w) as [|[msg| [[data|]|] |code message video] rest] eqn:Hweb; simpl.
  - exists (false, empty_data), [line ("检查合集状态时发生错误: " +:+ "connection failed")].
    split; [|done]. unfold ret. f_equal. exact (with_web_drop_nil _ _ Hweb).
  - exists (false, empty_data), [line ("检查合集状态时发生错误: " +:+ msg)].
    split; [|done]. unfold ret. f_equal. exact (with_web_drop_cons _ _ _ _ Hweb).
  - destruct (bool_decide _); eexists _, []; (split; [|simpl; lia]); unfold ret; f_equal;
      exact (with_web_drop_cons_quiet _ _ _ Hweb).
  - exists (false, empty_data), [line "解析页面数据失败"].
    split; [|done]. f_equal. exact (with_web_drop_cons _ _ _ _ Hweb).
  - exists (false, empty_data), []. split; [|simpl; lia].
    f_equal. exact (with_web_drop_cons_quiet _ _ _ Hweb).
  - exists (false, empty_data), []. split; [|simpl; lia].
    f_equal. exact (with_web_drop_cons_quiet _ _ _ Hweb).
Qed.

(** X5.  [check_collection] never raises: it uses at most one answer of
    the network, writes at most one line to the console and leaves the files
    and the operator's input alone. *)
Theorem check_collection_never_raises (url : string) (w : World) :
  ∃ answer out,
    check_collection url w = (Ok answer, with_web (drop 1) (emit out w))
    ∧ (length out ≤ 1)%nat.
Proof. exact (check_collection_run url w). Qed.





(** ** Selection: what every mode guarantees *)

Lemma filter_fmap {A B} (f : A → B) (P : B → Prop) `{∀ y, Decision (P y)} (l : list A) :
  filter P (f <$> l) = f <$> filter (λ x, P (f x)) l.
Proof.
  induction l as [|x l IH]; [done|].
  rewrite fmap_cons, !filter_cons, IH. by destruct (decide (P (f x))).
Qed.

Lemma selectable_videos_have_id sections v :
  v ∈ selectable_videos sections → bvid v ≠ "".
Proof.
  unfold selectable_videos, selectable.
  intros (ep & -> & [Hid _]%list_elem_of_filter)%list_elem_of_fmap. exact Hid.
Qed.

Lemma video_map_values sections k v :
  build_video_map sections !! k = Some v → v ∈ selectable_videos sections.
Proof.
  rewrite build_video_map_insertions, foldl_assign_lookup, lookup_empty.
  destruct (last _) as [[k' v']|] eqn:Hlast; [|done].
  intros [= <-]. apply last_Some_elem_of in Hlast.
  apply list_elem_of_filter in Hlast as [_ Hin].
  apply elem_of_insertions in Hin as (j & Hj & _).
  by eapply list_elem_of_lookup_2.
Qed.

Lemma slice_subseteq {A} (s e : Z) (l : list A) : slice s e l ⊆ l.
Proof.
  unfold slice. etrans; [apply subseteq_take | apply subseteq_drop].
Qed.

Lemma selection_of_inputs_from_collection py_int ledger sections inputs vs :
  selection_of_inputs py_int ledger sections inputs = Ok vs →
  Forall (λ v, v ∈ selectable_videos sections) vs.
Proof.
  unfold selection_of_inputs. destruct inputs as [|choice rest]; [done|].
  destruct (String.eqb choice "1").
  { intros [= <-]. apply Forall_forall. intros v.
    intros (ep & -> & [[_ Hid] Hin]%list_elem_of_filter)%list_elem_of_fmap.
    unfold selectable_videos, selectable.
    apply list_elem_of_fmap. exists ep. split; [done|].
    by apply list_elem_of_filter. }
  destruct (String.eqb choice "2").
  { destruct rest as [|text rest]; [done|]. intros [= <-].
    apply Forall_forall. intros v (t & _ & Ht)%list_elem_of_omap.
    by eapply video_map_values. }
  destruct (String.eqb choice "3").
  { destruct rest as [|text rest]; [done|].
    destruct (unpack_two_ints _ _) as [[s e]|ex]; [|by intros [= <-]].
    case_bool_decide; intros [= <-]; [|done].
    apply Forall_forall. intros v [_ Hin]%list_elem_of_filter.
    by eapply slice_subseteq. }
  by intros [= <-].
Qed.

(** X8.  Whatever the operator chooses, every video that
    [process_collection] returns is the entry of an episode of the
    collection and has a video id that is not empty. *)
Theorem process_collection_returns_episodes_with_id (py_int : string → option Z)
    (data : Data) (w : World) (videos : list video_info) :
  (process_collection py_int data w).1 = Ok videos →
  Forall (λ v, bvid v ≠ "" ∧ ∃ episode, episode ∈ all_episodes (data_sections data)
                                        ∧ v = episode_info episode) videos.
Proof.
  destruct (process_collection_char py_int data w) as [-> _].
  intros Hv%selection_of_inputs_from_collection.
  eapply Forall_impl; [exact Hv|]. intros v Hin. simpl in Hin.
  split; [by eapply selectable_videos_have_id|].
  unfold selectable_videos, selectable in Hin.
  apply list_elem_of_fmap in Hin as (ep & -> & [_ Hep]%list_elem_of_filter). eauto.
Qed.

Lemma process_collection_returns_episodes_with_id_witness :
  Forall (λ v, bvid v ≠ "" ∧ ∃ episode,
             episode ∈ all_episodes
               (data_sections (collection_of "BVc"
                  [[episode_without_id "a"; episode_of "b" "BV2"]; [episode_of "c" "BV3"]]))
             ∧ v = episode_info episode)
    (episode_info <$> [episode_of "c" "BV3"; episode_of "b" "BV2"]).
Proof.
  apply (process_collection_returns_episodes_with_id IntAscii.int
           (collection_of "BVc"
              [[episode_without_id "a"; episode_of "b" "BV2"]; [episode_of "c" "BV3"]])
           (world_of "BVc" (Some ["BV2"]) ["2"; "2,1"])).
  vm_compute. reflexivity.
Defined.

(** X9.  With the choices '1' and '3', no video that [process_collection]
    returns is in the loaded ledger. *)
Theorem process_collection_skips_ledger (py_int : string → option Z) (data : Data)
    (w : World) (choice : string) (rest : list string) (videos : list video_info) :
  stdin w = choice :: rest →
  choice = "1" ∨ choice = "3" →
  (process_collection py_int data w).1 = Ok videos →
  Forall (not_in_ledger (load_set w (data_collection_id data))) videos.
Proof.
  intros Hin Hc. destruct (process_collection_char py_int data w) as [-> _].
  rewrite Hin. unfold selection_of_inputs.
  destruct Hc as [-> | ->]; simpl.
  - intros [= <-]. apply Forall_forall. intros v.
    intros (ep & -> & [[Hl _] _]%list_elem_of_filter)%list_elem_of_fmap. exact Hl.
  - destruct rest as [|text rest']; [done|].
    destruct (unpack_two_ints _ _) as [[s e]|ex]; [|by intros [= <-]].
    case_bool_decide; intros [= <-]; [|done].
    apply Forall_forall. by intros v [Hl _]%list_elem_of_filter.
Qed.

Lemma process_collection_skips_ledger_witness :
  Forall (not_in_ledger (load_set (world_of "BVc" (Some ["BV2"]) ["3"; "1,3"]) "BVc"))
    (episode_info <$> [episode_of "a" "BV1"; episode_of "c" "BV3"]).
Proof.
  apply (process_collection_skips_ledger IntAscii.int
           (collection_of "BVc" [[episode_of "a" "BV1"; episode_of "b" "BV2"];
                                 [episode_of "c" "BV3"]])
           (world_of "BVc" (Some ["BV2"]) ["3"; "1,3"]) "3" ["1,3"]).
  - reflexivity.
  - by right.
  - vm_compute. reflexivity.
Defined.

(** X10.  The range from 1 to the number of episodes with a video id
    selects what the choice '1' selects. *)
Theorem full_range_is_all (py_int : string → option Z) (data : Data) (w : World)
    (text : string) (rest : list string) :
  stdin w = "3" :: text :: rest →
  unpack_two_ints py_int (PyStr.split_comma (PyStr.strip text))
  = Ok (1, Z.of_nat (length (selectable_videos (data_sections data)))) →
  selectable_videos (data_sections data) ≠ [] →
  (process_collection py_int data w).1
  = (process_collection py_int data (with_stdin (λ _, ["1"]) w)).1.
Proof.
  intros Hin Hu Hne.
  destruct (process_collection_char py_int data w) as [-> _].
  destruct (process_collection_char py_int data (with_stdin (λ _, ["1"]) w)) as [-> _].
  rewrite Hin. unfold selection_of_inputs. simpl. rewrite Hu.
  assert (0 < length (selectable_videos (data_sections data)))%nat
    by (destruct (selectable_videos _); [done | simpl; lia]).
  rewrite bool_decide_eq_true_2 by lia.
  f_equal. unfold slice. rewrite Z.sub_diag. simpl. rewrite drop_0.
  rewrite take_ge by lia.
  unfold load_set. simpl.
  unfold selectable_videos, selectable.
  rewrite (filter_fmap episode_info), list_filter_filter. done.
Qed.

Lemma full_range_is_all_witness :
  (process_collection IntAscii.int Demo.data
     (with_stdin (λ _, ["3"; "1,3"]) Demo.world)).1
  = (process_collection IntAscii.int Demo.data
       (with_stdin (λ _, ["1"]) (with_stdin (λ _, ["3"; "1,3"]) Demo.world))).1.
Proof.
  apply (full_range_is_all IntAscii.int Demo.data
           (with_stdin (λ _, ["3"; "1,3"]) Demo.world) "1,3" []).
  - reflexivity.
  - vm_compute. reflexivity.
  - vm_compute. discriminate.
Defined.

(** X11.  A choice other than '1', '2' and '3' selects nothing: the result
    is the empty list, no further line is read and nothing is written after
    the menu. *)
Theorem unknown_choice_selects_nothing (py_int : string → option Z) (data : Data)
    (w : World) (choice : string) (rest : list string) :
  stdin w = choice :: rest →
  choice ≠ "1" → choice ≠ "2" → choice ≠ "3" →
  process_collection py_int data w = (Ok [], at_menu data w)
  ∧ stdin (at_menu data w) = rest.
Proof.
  intros Hin H1 H2 H3.
  rewrite (process_collection_run _ _ _ _ _ Hin).
  split; [|by eapply at_menu_stdin].
  unfold with_selected, select.
  rewrite (proj2 (String.eqb_neq _ _) H1), (proj2 (String.eqb_neq _ _) H2),
    (proj2 (String.eqb_neq _ _) H3).
  reflexivity.
Qed.

Lemma unknown_choice_selects_nothing_witness :
  process_collection IntAscii.int Demo.data (with_stdin (λ _, ["all"; "1,2"]) Demo.world)
  = (Ok [], at_menu Demo.data (with_stdin (λ _, ["all"; "1,2"]) Demo.world))
  ∧ stdin (at_menu Demo.data (with_stdin (λ _, ["all"; "1,2"]) Demo.world)) = ["1,2"].
Proof.
  apply (unknown_choice_selects_nothing IntAscii.int Demo.data
           (with_stdin (λ _, ["all"; "1,2"]) Demo.world) "all" ["1,2"]);
    [reflexivity | discriminate..].
Defined.

(** X12.  When no episode of the collection has a video id, in particular
    when the collection has no section or no episode, every selection that
    returns is empty. *)
Theorem empty_collection_selects_nothing (py_int : string → option Z) (data : Data)
    (w : World) (videos : list video_info) :
  selectable (data_sections data) = [] →
  (process_collection py_int data w).1 = Ok videos →
  videos = [].
Proof.
  intros Hempty. destruct (process_collection_char py_int data w) as [-> _].
  intros Hv%selection_of_inputs_from_collection.
  unfold selectable_videos in Hv. rewrite Hempty in Hv.
  destruct videos as [|v vs]; [done|].
  apply Forall_cons in Hv as [Hin _]. by apply elem_of_nil in Hin.
Qed.

Lemma empty_collection_selects_nothing_witness :
  match (process_collection IntAscii.int
           (collection_of "BVc" [[]; [episode_without_id "a"]])
           (world_of "BVc" None ["3"; "1,1"])).1 with
  | Ok videos => videos = []
  | Raise _ => False
  end.
Proof.
  destruct (process_collection IntAscii.int
              (collection_of "BVc" [[]; [episode_without_id "a"]])
              (world_of "BVc" None ["3"; "1,1"])).1 as [videos|ex] eqn:H.
  - exact (empty_collection_selects_nothing IntAscii.int
             (collection_of "BVc" [[]; [episode_without_id "a"]])
             (world_of "BVc" None ["3"; "1,1"]) videos eq_refl H).
  - vm_compute in H. discriminate H.
Defined.

(** ** The operator's line: pieces and integers *)

Lemma split_comma_not_nil s : PyStr.split_comma s ≠ [].
Proof. destruct s as [|c s]; simpl; [done|]. destruct (Ascii.eqb _ _); [done|]. by destruct (PyStr.split_comma s). Qed.

Lemma concat_cons_ne sep x (l : list string) :
  l ≠ [] → String.concat sep (x :: l) = x +:+ sep +:+ String.concat sep l.
Proof. by destruct l. Qed.

(** X13.  Splitting a line at its commas loses nothing: joining the pieces
    with commas gives the line back, there is at least one piece, and no
    piece contains a comma. *)
Theorem split_comma_join (s : string) :
  String.concat "," (PyStr.split_comma s) = s
  ∧ PyStr.split_comma s ≠ []
  ∧ Forall (λ piece, ","%char ∉ String.list_ascii_of_string piece) (PyStr.split_comma s).
Proof.
  split; [|split; [apply split_comma_not_nil|]].
  - induction s as [|c s IH]; [done|]. simpl.
    destruct (Ascii.eqb_spec c ","%char) as [->|Hne].
    + rewrite concat_cons_ne by apply split_comma_not_nil. by rewrite IH.
    + pose proof (split_comma_not_nil s) as Hnn.
      destruct (PyStr.split_comma s) as [|p ps]; [done|].
      destruct ps as [|p' ps].
      * simpl in *. by rewrite IH.
      * rewrite concat_cons_ne in IH |- * by done.
        rewrite str_app_cons. by rewrite IH.
  - induction s as [|c s IH]; simpl.
    + constructor; [|constructor]. by intros ?%elem_of_nil.
    + destruct (Ascii.eqb_spec c ","%char) as [->|Hne].
      * constructor; [|done]. by intros ?%elem_of_nil.
      * pose proof (split_comma_not_nil s) as Hnn.
        destruct (PyStr.split_comma s) as [|p ps]; [done|].
        apply Forall_cons in IH as [Hp Hps]. constructor; [|done].
        simpl. intros [?|?]%elem_of_cons; [by apply Hne|by apply Hp].
Qed.

(** X14.  [start, end = map(int, pieces)] succeeds exactly when there are
    two pieces and both are integers; in every other case it raises a
    [ValueError]. *)
Theorem unpack_two_ints_exactly_two (py_int : string → option Z) (pieces : list string)
    (s e : Z) :
  (unpack_two_ints py_int pieces = Ok (s, e) ↔
     ∃ a b, pieces = [a; b] ∧ py_int a = Some s ∧ py_int b = Some e)
  ∧ (∀ ex, unpack_two_ints py_int pieces = Raise ex → exn_cls ex = ValueError).
Proof.
  split.
  - split.
    + unfold unpack_two_ints, int_or_raise.
      destruct pieces as [|a [|b [|c rest]]]; try done;
        destruct (py_int a) eqn:Ha; try done;
        destruct (py_int b) eqn:Hb; try done.
      * intros [= <- <-]. eauto.
      * by destruct (py_int c).
    + intros (a & b & -> & Ha & Hb). unfold unpack_two_ints, int_or_raise.
      by rewrite Ha, Hb.
  - intros ex. unfold unpack_two_ints, int_or_raise.
    destruct pieces as [|a [|b [|c rest]]]; [by intros [= <-]|..];
      repeat (match goal with
              | |- context [py_int ?x] => destruct (py_int x)
              end); by intros [= <-].
Qed.

(** ** The listing and the numbers it shows *)







(** ** The loop of [process_video]: what an iteration records *)

Section LoopProperties.

Variable download_video : video_info → M World (option string).
Variable extract_audio : string → string → string → M World string.
Variable split_audio : string → string → string → M World (list string).
Variable transcribe_audio : list string → string → string → M World string.

Abbreviation process_one'' :=
  (process_one download_video extract_audio split_audio transcribe_audio).
Abbreviation process_each'' :=
  (process_each download_video extract_audio split_audio transcribe_audio).

(** X17.  A video whose download fails is not marked as done: the
    iteration reports the failure, invokes no later stage, leaves the set of
    downloaded videos as it was and does not call [_save_progress]. *)
Theorem failed_download_is_not_marked (collection_id : string) (video : video_info)
    (downloaded_videos : gset pykey) (w w2 : World) (trace : list event) :
  fs w !! output_path_of video = None →
  download_video video (emit [line (PyStr.nl +:+ "处理视频：" +:+ title video)] w)
  = (Ok None, w2) →
  process_one'' collection_id video downloaded_videos (w, trace)
  = (Ok downloaded_videos,
     (emit [line "视频下载失败"] w2, trace ++ [EvDownload video])).
Proof.
  intros Hout Hdl. unfold process_one.
  erewrite bind_ok by apply on_fst_print.
  erewrite bind_ok by reflexivity. simpl.
  rewrite Hout. rewrite bool_decide_eq_false_2 by (by intros [? ?]).
  erewrite bind_ok by reflexivity. cbn [fst snd].
  erewrite bind_ok by (apply on_fst_run, Hdl). cbn beta iota.
  by erewrite bind_ok by apply on_fst_print.
Qed.

(** X18.  When the four stages succeed for a video of a collection, the
    iteration adds the video id to the set of downloaded videos and hands
    the enlarged set to [_save_progress] as its last call; when the progress
    file can be written, a load then gives this set. *)
Theorem completed_video_is_marked (collection_id : string) (video : video_info)
    (downloaded_videos : gset pykey) (w w2 w3 w4 w5 : World) (trace : list event)
    (video_path audio_path output : string) (audio_chunks : list string) :
  fs w !! output_path_of video = None →
  download_video video (emit [line (PyStr.nl +:+ "处理视频：" +:+ title video)] w)
  = (Ok (Some video_path), w2) →
  video_path ≠ "" →
  extract_audio video_path (title video) (bvid video) w2 = (Ok audio_path, w3) →
  split_audio audio_path (title video) (bvid video) w3 = (Ok audio_chunks, w4) →
  transcribe_audio audio_chunks (title video) (bvid video) w4 = (Ok output, w5) →
  collection_id ≠ "" →
  ∃ w6,
    process_one'' collection_id video downloaded_videos (w, trace)
    = (Ok ({[KStr (bvid video)]} ∪ downloaded_videos),
       (w6, trace ++ [EvDownload video;
                      EvExtractAudio video_path (title video) (bvid video);
                      EvSplitAudio audio_path (title video) (bvid video);
                      EvTranscribe audio_chunks (title video) (bvid video);
                      EvSave collection_id ({[KStr (bvid video)]} ∪ downloaded_videos)]))
    ∧ (progress_file collection_id ∉ readonly w5 →
       _load_progress collection_id w6
       = (Ok ({[KStr (bvid video)]} ∪ downloaded_videos), w6)).
Proof.
  intros Hout Hdl Hpath Hex Hsp Htr Hcid. unfold process_one.
  erewrite bind_ok by apply on_fst_print.
  erewrite bind_ok by reflexivity. simpl.
  rewrite Hout. rewrite bool_decide_eq_false_2 by (by intros [? ?]).
  erewrite bind_ok by reflexivity. cbn [fst snd].
  erewrite bind_ok by (apply on_fst_run, Hdl). cbn beta iota.
  rewrite (proj2 (truthy_true video_path) Hpath). cbn [negb].
  erewrite bind_ok by reflexivity. cbn [fst snd].
  erewrite bind_ok by (apply on_fst_run, Hex).
  erewrite bind_ok by reflexivity. cbn [fst snd].
  erewrite bind_ok by (apply on_fst_run, Hsp).
  erewrite bind_ok by reflexivity. cbn [fst snd].
  erewrite bind_ok by (apply on_fst_run, Htr).
  rewrite (proj2 (truthy_true collection_id) Hcid).
  erewrite bind_ok by reflexivity. cbn [fst snd].
  destruct (decide (progress_file collection_id ∈ readonly w5)) as [Hro|Hro].
  - erewrite bind_ok by (apply on_fst_run; by apply save_progress_refused).
    eexists. split; [|done]. unfold ret, log, modify. simpl.
    by rewrite <- !app_assoc.
  - erewrite bind_ok by (apply on_fst_run; by apply save_progress_writes).
    eexists. split.
    + unfold ret, log, modify. simpl. by rewrite <- !app_assoc.
    + intros _. eapply load_progress_stored; [|apply py_set_json_of_set].
      simpl. by rewrite lookup_insert_eq.
Qed.

Lemma process_one_without_collection video downloaded_videos (st : PV) :
  ∃ new, (process_one'' "" video downloaded_videos st).2.2 = st.2 ++ new
    ∧ Forall stage_event new
    ∧ ∀ d, (process_one'' "" video downloaded_videos st).1 = Ok d → d = downloaded_videos.
Proof.
  destruct st as [w tr]. unfold process_one.
  erewrite bind_ok by apply on_fst_print.
  erewrite bind_ok by reflexivity. simpl.
  destruct (bool_decide _).
  { erewrite bind_ok by apply on_fst_print. simpl.
    exists []. rewrite app_nil_r. repeat split; [done|by intros d [= <-]]. }
  unfold bind, on_fst, log, modify, ret. simpl.
  destruct (download_video video _) as [[[video_path|]|ex] w2]; simpl.
  2,3: exists [EvDownload video]; repeat split;
       [by repeat constructor | by intros d [= <-]].
  destruct (PyStr.truthy video_path); simpl.
  2:{ exists [EvDownload video]. repeat split;
        [by repeat constructor | by intros d [= <-]]. }
  destruct (extract_audio _ _ _ _) as [[audio_path|ex] w3]; simpl.
  2:{ eexists [_; _]. rewrite <- !app_assoc. repeat split; [by repeat constructor|done]. }
  destruct (split_audio _ _ _ _) as [[audio_chunks|ex] w4]; simpl.
  2:{ eexists [_; _; _]. rewrite <- !app_assoc.
      repeat split; [by repeat constructor|done]. }
  destruct (transcribe_audio _ _ _ _) as [[output|ex] w5]; simpl.
  2:{ eexists [_; _; _; _]. rewrite <- !app_assoc.
      repeat split; [by repeat constructor|done]. }
  eexists [_; _; _; _]. rewrite <- !app_assoc.
  repeat split; [by repeat constructor | by intros d [= <-]].
Qed.

(** X19.  Without a collection id (a single video) the loop never loads
    and never saves a ledger, whatever the stages do, and the set of
    downloaded videos stays as it was. *)
Theorem loop_without_collection_keeps_ledger_alone (videos : list video_info)
    (downloaded_videos : gset pykey) (st : PV) :
  ∃ new, (process_each'' "" videos downloaded_videos st).2.2 = st.2 ++ new
    ∧ Forall stage_event new
    ∧ ∀ d, (process_each'' "" videos downloaded_videos st).1 = Ok d →
           d = downloaded_videos.
Proof.
  revert downloaded_videos st.
  induction videos as [|video rest IH]; intros downloaded_videos st.
  - exists []. simpl. rewrite app_nil_r. repeat split; [done|by intros d [= <-]].
  - cbn [process_each]. unfold bind.
    destruct (process_one_without_collection video downloaded_videos st)
      as (new1 & Htr & Hfor & Hd).
    destruct (process_one'' "" video downloaded_videos st) as [[d1|ex] st1]; simpl in *.
    + rewrite (Hd d1 eq_refl).
      destruct (IH downloaded_videos st1) as (new2 & Htr2 & Hfor2 & Hd2).
      exists (new1 ++ new2). rewrite Htr2, Htr, app_assoc.
      repeat split; [by apply Forall_app|done].
    + exists new1. done.
Qed.

End LoopProperties.

Lemma failed_download_is_not_marked_witness :
  process_one (λ _, ret None) Demo.extract_audio Demo.split_audio Demo.transcribe_audio
    "BVc" (episode_info (episode_of "a" "BV1")) ∅ (Demo.world, [])
  = (Ok ∅,
     (emit [line "视频下载失败"]
        (emit [line (PyStr.nl +:+ "处理视频：" +:+ "a")] Demo.world),
      [EvDownload (episode_info (episode_of "a" "BV1"))])).
Proof.
  apply (failed_download_is_not_marked (λ _, ret None) Demo.extract_audio
           Demo.split_audio Demo.transcribe_audio "BVc"
           (episode_info (episode_of "a" "BV1")) ∅ Demo.world); reflexivity.
Defined.

Lemma completed_video_is_marked_witness :
  ∃ w6,
    process_one Demo.download_video Demo.extract_audio Demo.split_audio
      Demo.transcribe_audio "BVc" (episode_info (episode_of "a" "BV1"))
      (list_to_set [KStr "BV2"]) (Demo.world, [])
    = (Ok ({[KStr "BV1"]} ∪ list_to_set [KStr "BV2"]),
       (w6, [] ++ [EvDownload (episode_info (episode_of "a" "BV1"));
                   EvExtractAudio "bilibili_video/a/video/BV1.mp4" "a" "BV1";
                   EvSplitAudio "bilibili_video/a/conv/BV1.mp3" "a" "BV1";
                   EvTranscribe ["bilibili_video/a/slice/BV1/0.mp3"] "a" "BV1";
                   EvSave "BVc" ({[KStr "BV1"]} ∪ list_to_set [KStr "BV2"])]))
    ∧ (progress_file "BVc"
       ∉ readonly (with_fs (<["bilibili_video/a/outputs/BV1.txt" := NotJson "transcript"]>)
                     (emit [line (PyStr.nl +:+ "处理视频：" +:+ "a")] Demo.world)) →
       _load_progress "BVc" w6
       = (Ok ({[KStr "BV1"]} ∪ list_to_set [KStr "BV2"]), w6)).
Proof.
  eapply (completed_video_is_marked Demo.download_video Demo.extract_audio
            Demo.split_audio Demo.transcribe_audio "BVc"
            (episode_info (episode_of "a" "BV1")) (list_to_set [KStr "BV2"])
            Demo.world) with (output := "bilibili_video/a/outputs/BV1.txt");
    first [reflexivity | discriminate].
Defined.

(** ** The configuration *)

(** X20.  [load_config] never raises: it returns the document of
    config.json as it is when the file decodes, and the default
    configuration (no cookies, no headers) when the file is missing, cannot
    be read or does not decode; it changes nothing but the console. *)
Theorem load_config_never_raises (w : World) :
  ∃ out, load_config w
         = (Ok (match fs w !! "config.json" with
                | Some (JsonDoc j) => j
                | _ => default_config
                end), emit out w)
    ∧ (out = [] ↔ match fs w !! "config.json" with
                  | Some (Unreadable _) | Some (NotJson _) => False
                  | _ => True
                  end).
Proof.
  unfold load_config, bind at 1, path_exists.
  destruct (fs w !! "config.json") as [[msg|msg|j]|] eqn:Hf.
  - rewrite bool_decide_eq_true_2 by eauto.
    unfold bind, try_except, read_json. rewrite Hf. simpl.
    eexists [_]. split; [reflexivity|]. split; [done|tauto].
  - rewrite bool_decide_eq_true_2 by eauto.
    unfold bind, try_except, read_json. rewrite Hf. simpl.
    eexists [_]. split; [reflexivity|]. split; [done|tauto].
  - rewrite bool_decide_eq_true_2 by eauto.
    unfold bind, try_except, read_json. rewrite Hf. simpl.
    exists []. by rewrite emit_nil.
  - rewrite bool_decide_eq_false_2 by (by intros [? ?]).
    exists []. by rewrite emit_nil.
Qed.

(** ** The state embedded in a page *)

Lemma prefix_app p t : String.prefix p (p +:+ t) = true.
Proof.
  induction p as [|a p IH]; [by destruct t|].
  rewrite str_app_cons. simpl. destruct (ascii_dec a a); [done|congruence].
Qed.

Lemma prefix_inv p s :
  String.prefix p s = true → s = p +:+ Scan.drop (String.length p) s.
Proof.
  revert s. induction p as [|a p IH]; intros s H; [done|].
  destruct s as [|b s]; [done|]. simpl in H.
  destruct (ascii_dec a b) as [->|]; [|done].
  rewrite str_app_cons. simpl. f_equal. by apply IH.
Qed.

Lemma scan_drop_app n u x :
  (n ≤ String.length u)%nat → Scan.drop n (u +:+ x) = Scan.drop n u +:+ x.
Proof.
  revert u. induction n as [|n IH]; intros u Hn; [done|].
  destruct u as [|a u]; simpl in Hn; [lia|].
  rewrite str_app_cons. simpl. apply IH. lia.
Qed.

Lemma after_first_eq p s :
  Scan.after_first p s
  = if String.prefix p s then Some (Scan.drop (String.length p) s)
    else match s with
         | "" => None
         | String _ s' => Scan.after_first p s'
         end.
Proof. by destruct s. Qed.

Lemma after_first_sound p s t :
  Scan.after_first p s = Some t → ∃ a, s = a +:+ p +:+ t.
Proof.
  induction s as [|c s IH]; rewrite after_first_eq.
  - destruct (String.prefix p "") eqn:Hp; [|done].
    intros [= <-]. exists "". by apply prefix_inv.
  - destruct (String.prefix p (String c s)) eqn:Hp.
    + intros [= <-]. exists "". by apply prefix_inv.
    + intros (a & ->)%IH. by exists (String c a).
Qed.

(** The text after the first occurrence ends with whatever follows any
    occurrence. *)
Lemma after_first_complete p a x :
  ∃ t pre, Scan.after_first p (a +:+ p +:+ x) = Some t ∧ t = pre +:+ x.
Proof.
  induction a as [|c a IH]; rewrite after_first_eq.
  - rewrite str_app_nil_l, prefix_app. eexists _, "".
    split; [done|]. rewrite str_app_nil_l.
    rewrite scan_drop_app by lia.
    assert (Hd : ∀ q, Scan.drop (String.length q) q = "")
      by (induction q; simpl; done).
    by rewrite Hd.
  - destruct (String.prefix p (String c a +:+ p +:+ x)) eqn:Hp.
    + eexists _, _. split; [done|].
      rewrite <- str_app_assoc. apply scan_drop_app.
      rewrite str_app_length. lia.
    + rewrite str_app_cons. exact IH.
Qed.

Lemma before_last_cons q c s :
  Scan.before_last q (String c s)
  = match Scan.before_last q s with
    | Some b => Some (String c b)
    | None => if String.prefix q (String c s) then Some "" else None
    end.
Proof. reflexivity. Qed.

Lemma before_last_sound q s b :
  Scan.before_last q s = Some b → ∃ r, s = b +:+ q +:+ r.
Proof.
  revert b. induction s as [|c s IH]; intros b.
  - simpl. destruct q; [|done]. intros [= <-]. by exists "".
  - rewrite before_last_cons. destruct (Scan.before_last q s) as [b0|].
    + intros [= <-]. destruct (IH b0 eq_refl) as [r Hr]. exists r.
      by rewrite str_app_cons, <- Hr.
    + destruct (String.prefix q (String c s)) eqn:Hp; [|done].
      intros [= <-]. eexists. rewrite str_app_nil_l. by apply prefix_inv.
Qed.

(** The occurrence found is the last one. *)
Lemma before_last_complete q x y :
  ∃ b, Scan.before_last q (x +:+ q +:+ y) = Some b
       ∧ (String.length x ≤ String.length b)%nat.
Proof.
  induction x as [|c x IH].
  - rewrite str_app_nil_l. destruct (q +:+ y) as [|c s] eqn:Hs.
    + destruct q; [|done]. exists "". done.
    + rewrite before_last_cons. destruct (Scan.before_last q s) as [b0|].
      * eexists. split; [done|]. simpl. lia.
      * rewrite <- Hs, prefix_app. by exists "".
  - rewrite str_app_cons, before_last_cons. destruct IH as (b & -> & Hlen).
    eexists. split; [done|]. simpl. lia.
Qed.

Lemma get_initial_state_found_aux html_content c body :
  get_initial_state html_content = String c body →
  ∃ a b, html_content
         = a +:+ INITIAL_STATE_open +:+ String c body +:+ INITIAL_STATE_close +:+ b.
Proof.
  unfold get_initial_state.
  destruct (Scan.after_first _ _) as [[|c' rest]|] eqn:Hopen; [done| |done].
  destruct (Scan.before_last _ rest) as [body'|] eqn:Hclose; [|done].
  intros [= -> ->].
  apply after_first_sound in Hopen as [a ->].
  apply before_last_sound in Hclose as [b ->].
  exists a, b. by rewrite !str_app_cons.
Qed.

(** X21.  What [get_initial_state] returns, when it is not empty, stands
    in the page between the opening text [window.__INITIAL_STATE__=] and a
    closing text [;(function], and the closing text is the last one of the
    page after that opening: the match is greedy. *)
Theorem get_initial_state_between_markers (html_content body : string) :
  get_initial_state html_content = body →
  body ≠ "" →
  ∃ a b,
    html_content = a +:+ INITIAL_STATE_open +:+ body +:+ INITIAL_STATE_close +:+ b
    ∧ ∀ x y, body +:+ INITIAL_STATE_close +:+ b = x +:+ INITIAL_STATE_close +:+ y →
             (String.length x ≤ String.length body)%nat.
Proof.
  unfold get_initial_state.
  destruct (Scan.after_first _ _) as [[|c rest]|] eqn:Hopen; [done| |done].
  destruct (Scan.before_last _ rest) as [body'|] eqn:Hclose; [|done].
  intros <- _.
  apply after_first_sound in Hopen as [a ->].
  pose proof Hclose as Hsound. apply before_last_sound in Hsound as [b ->].
  exists a, b. split.
  - by rewrite !str_app_cons.
  - intros x y Hxy. destruct x as [|c' x]; [simpl; lia|].
    rewrite !str_app_cons in Hxy. injection Hxy as <- Hxy.
    destruct (before_last_complete INITIAL_STATE_close x y) as (b2 & Hb2 & Hlen).
    rewrite <- Hxy, Hclose in Hb2. injection Hb2 as <-. simpl. lia.
Qed.

Lemma get_initial_state_between_markers_witness :
  ∃ a b,
    "<script>window.__INITIAL_STATE__={};(function(){a;(function()b"
    = a +:+ INITIAL_STATE_open +:+ "{};(function(){a" +:+ INITIAL_STATE_close +:+ b
    ∧ ∀ x y, "{};(function(){a" +:+ INITIAL_STATE_close +:+ b
             = x +:+ INITIAL_STATE_close +:+ y →
             (String.length x ≤ String.length "{};(function(){a")%nat.
Proof.
  apply (get_initial_state_between_markers
           "<script>window.__INITIAL_STATE__={};(function(){a;(function()b").
  - vm_compute. reflexivity.
  - discriminate.
Defined.

(** X22.  [get_initial_state] returns a text that is not empty exactly when
    the page has the opening text followed, after at least one character,
    by the closing text; otherwise it returns the empty text. *)
Theorem get_initial_state_found_iff (html_content : string) :
  get_initial_state html_content ≠ "" ↔
  ∃ a c x b,
    html_content
    = a +:+ INITIAL_STATE_open +:+ String c x +:+ INITIAL_STATE_close +:+ b.
Proof.
  split.
  - intros Hne.
    destruct (get_initial_state html_content) as [|c body] eqn:Hg; [done|].
    destruct (get_initial_state_found_aux html_content c body Hg) as (a & b & H).
    by exists a, c, body, b.
  - intros (a & c & x & b & ->). unfold get_initial_state.
    destruct (after_first_complete INITIAL_STATE_open a
                (String c x +:+ INITIAL_STATE_close +:+ b)) as (t & pre & -> & ->).
    assert (Hshape : ∃ c1 x1, pre +:+ String c x +:+ INITIAL_STATE_close +:+ b
                              = String c1 (x1 +:+ INITIAL_STATE_close +:+ b)).
    { destruct pre as [|c1 pre].
      - exists c, x. by rewrite str_app_nil_l, str_app_cons.
      - exists c1, (pre +:+ String c x). by rewrite str_app_cons, str_app_assoc. }
    destruct Hshape as (c1 & x1 & ->).
    destruct (before_last_complete INITIAL_STATE_close x1 b) as (body & -> & _).
    done.
Qed.

(** ** Splitting the audio into chunks *)

(** X23.  The chunks of [split_audio] start every 45000 milliseconds from
    0: there are as many as the length of the audio divided by 45000,
    rounded up; every start lies inside the audio; and every millisecond of
    the audio falls into the 45000 milliseconds after one of the starts. *)
Theorem chunk_starts_cover_audio (len : Z) :
  0 ≤ len →
  let starts := py_range_step 0 len chunk_length in
  Z.of_nat (length starts) = (len + chunk_length - 1) `div` chunk_length
  ∧ (∀ (i : nat) start, starts !! i = Some start →
       start = chunk_length * Z.of_nat i ∧ 0 ≤ start < len)
  ∧ (∀ t, 0 ≤ t < len →
       ∃ (i : nat) start, starts !! i = Some start ∧ start ≤ t < start + chunk_length).
Proof.
  intros Hlen starts. subst starts. unfold py_range_step, chunk_length.
  case_bool_decide as Hpos.
  - split; [|split].
    + rewrite length_fmap, length_seqZ. Z.div_mod_to_equations. lia.
    + intros i start Hi. rewrite list_lookup_fmap in Hi.
      destruct (seqZ 0 _ !! i) as [k|] eqn:Hk; [|done]. injection Hi as <-.
      apply lookup_seqZ in Hk as [-> Hk]. Z.div_mod_to_equations. lia.
    + intros t Ht. exists (Z.to_nat (t `div` 45000)), (45000 * (t `div` 45000)).
      split.
      * rewrite list_lookup_fmap.
        rewrite (proj2 (lookup_seqZ 0 _ _ (t `div` 45000))); [simpl; f_equal; lia|].
        Z.div_mod_to_equations. lia.
      * Z.div_mod_to_equations. lia.
  - assert (len = 0) as -> by lia. split; [done|]. split; [done|]. intros t Ht. lia.
Qed.

Lemma chunk_starts_cover_audio_witness :
  Z.of_nat (length (py_range_step 0 100000 chunk_length))
  = (100000 + chunk_length - 1) `div` chunk_length
  ∧ py_range_step 0 100000 chunk_length = [0; 45000; 90000].
Proof.
  destruct (chunk_starts_cover_audio 100000 ltac:(lia)) as [H _].
  split; [exact H | reflexivity].
Defined.

Lemma enumerate_from_fmap_seqZ (g : Z → Z) (n : nat) (m : Z) :
  enumerate_from m (g <$> seqZ m (Z.of_nat n)) = (λ k, (k, g k)) <$> seqZ m (Z.of_nat n).
Proof.
  revert m. induction n as [|n IH]; intros m; [done|].
  rewrite seqZ_cons by lia.
  replace (Z.pred (Z.of_nat (S n))) with (Z.of_nat n) by lia.
  rewrite !fmap_cons. cbn [enumerate_from]. f_equal.
  replace (m + 1) with (Z.succ m) by lia. apply IH.
Qed.

Lemma exported_cons_export {Audio} (a : Audio) p (l : list (stage_call Audio)) :
  exported (CallExport a p :: l) = (a, p) :: exported l.
Proof. reflexivity. Qed.

Lemma omap_export_fmap {Audio} (f : Z → Audio * string) (ks : list Z) :
  exported ((λ k, CallExport (f k).1 (f k).2) <$> ks) = f <$> ks.
Proof.
  induction ks as [|k ks IH]; [done|].
  rewrite !fmap_cons, exported_cons_export, IH. by destruct (f k).
Qed.

Section StageProperties.

Variable Audio : Type.
Variable audio_len : Audio → Z.
Variable audio_slice : Audio → Z → Z → Audio.
Variable makedirs : string → M World unit.
Variable ffmpeg_run : string → string → M World unit.
Variable from_mp3 : string → M World Audio.
Variable export : Audio → string → M World unit.
Variable model_transcribe : string → string → M World string.
Variable write_text : string → string → M World unit.

Lemma note_run (c : stage_call Audio) (st : Stage Audio) :
  note Audio c st = (Ok tt, (st.1, st.2 ++ [c])).
Proof using Type. reflexivity. Qed.

Lemma export_chunks_run slice_dir audio (ks : list Z) chunks w calls :
  (∀ chunk path w0, ∃ w1, export chunk path w0 = (Ok tt, w1)) →
  ∃ w',
    export_chunks Audio audio_slice export slice_dir audio
      ((λ k, (k, chunk_length * k)) <$> ks) chunks (w, calls)
    = (Ok (chunks ++ ((λ k, slice_dir +:+ "/" +:+ PyStr.str k +:+ ".mp3") <$> ks)),
       (w', calls ++ ((λ k, CallExport
                              (audio_slice audio (chunk_length * k)
                                 (chunk_length * k + chunk_length))
                              (slice_dir +:+ "/" +:+ PyStr.str k +:+ ".mp3")) <$> ks))).
Proof using Type.
  intros Hexp. revert chunks w calls.
  induction ks as [|k ks IH]; intros chunks w calls.
  - exists w. simpl. unfold ret. by rewrite !app_nil_r.
  - rewrite !fmap_cons. cbn [export_chunks].
    erewrite bind_ok by apply note_run. cbn [fst snd].
    destruct (Hexp (audio_slice audio (chunk_length * k)
                      (chunk_length * k + chunk_length))
                   (slice_dir +:+ "/" +:+ PyStr.str k +:+ ".mp3") w) as [w1 Hw1].
    erewrite bind_ok by (apply on_fst_run, Hw1).
    destruct (IH (chunks ++ [slice_dir +:+ "/" +:+ PyStr.str k +:+ ".mp3"]) w1
                 (calls ++ [CallExport
                              (audio_slice audio (chunk_length * k)
                                 (chunk_length * k + chunk_length))
                              (slice_dir +:+ "/" +:+ PyStr.str k +:+ ".mp3")]))
      as [w' ->].
    exists w'. by rewrite <- !app_assoc.
Qed.

(** X24.  When the directory can be made, the audio loads and every export
    succeeds, [split_audio] exports, in order, the slices
    [audio[45000*i : 45000*i + 45000]] for i from 0 up to the number of
    chunks, each to [<slice_dir>/<i>.mp3], and returns these paths in the
    same order. *)
Theorem split_audio_exports_consecutive_chunks (audio_path title video_id : string)
    (audio : Audio) (w w1 w2 : World) :
  let slice_dir := "bilibili_video/" +:+ title +:+ "/slice/" +:+ video_id in
  makedirs slice_dir w = (Ok tt, w1) →
  from_mp3 audio_path w1 = (Ok audio, w2) →
  (∀ chunk path w0, ∃ w3, export chunk path w0 = (Ok tt, w3)) →
  0 ≤ audio_len audio →
  let indices := seqZ 0 ((audio_len audio + chunk_length - 1) `div` chunk_length) in
  ∃ w' calls,
    split_audio Audio audio_len audio_slice makedirs from_mp3 export
      audio_path title video_id (w, [])
    = (Ok ((λ i, slice_dir +:+ "/" +:+ PyStr.str i +:+ ".mp3") <$> indices), (w', calls))
    ∧ exported calls
      = (λ i, (audio_slice audio (chunk_length * i) (chunk_length * i + chunk_length),
               slice_dir +:+ "/" +:+ PyStr.str i +:+ ".mp3")) <$> indices.
Proof using Type.
  clear ffmpeg_run model_transcribe write_text.
  intros slice_dir Hmk Hload Hexp Hlen indices. unfold split_audio.
  erewrite bind_ok by apply note_run. cbn [fst snd].
  erewrite bind_ok by (apply on_fst_run, Hmk).
  erewrite bind_ok by apply note_run. cbn [fst snd].
  erewrite bind_ok by (apply on_fst_run, Hload).
  assert (Hplan : enumerate_from 0 (py_range_step 0 (audio_len audio) chunk_length)
                  = (λ k, (k, chunk_length * k)) <$> indices).
  { unfold py_range_step, indices.
    replace (if bool_decide (0 < audio_len audio)
             then (audio_len audio - 0 - 1) `div` chunk_length + 1 else 0)
      with ((audio_len audio + chunk_length - 1) `div` chunk_length).
    2:{ unfold chunk_length. case_bool_decide; Z.div_mod_to_equations; lia. }
    assert (0 ≤ (audio_len audio + chunk_length - 1) `div` chunk_length)
      by (unfold chunk_length; Z.div_mod_to_equations; lia).
    rewrite <- (Z2Nat.id ((audio_len audio + chunk_length - 1) `div` chunk_length)) by done.
    rewrite (enumerate_from_fmap_seqZ (λ k, 0 + chunk_length * k)).
    apply list_fmap_ext. intros _ k _. f_equal; lia. }
  rewrite Hplan.
  destruct (export_chunks_run slice_dir audio indices [] w2
              [CallMakedirs slice_dir; CallFromMp3 audio_path] Hexp) as [w' Hrun].
  fold slice_dir. simpl app in Hrun |- *. rewrite Hrun.
  eexists _, _. split; [reflexivity|].
  exact (omap_export_fmap
           (λ i, (audio_slice audio (chunk_length * i) (chunk_length * i + chunk_length),
                  slice_dir +:+ "/" +:+ PyStr.str i +:+ ".mp3")) indices).
Qed.

End StageProperties.

Lemma split_audio_exports_consecutive_chunks_witness :
  ∃ w' calls,
    split_audio Z (λ a, a) (λ a s e, Z.min e a - s) (λ _, ret tt) (λ _, ret 100000)
      (λ _ _, ret tt) "bilibili_video/t/conv/BV1.mp3" "t" "BV1" (Demo.world, [])
    = (Ok ((λ i, ("bilibili_video/" +:+ "t" +:+ "/slice/" +:+ "BV1") +:+ "/"
                 +:+ PyStr.str i +:+ ".mp3")
             <$> seqZ 0 ((100000 + chunk_length - 1) `div` chunk_length)),
       (w', calls))
    ∧ exported calls
      = (λ i, (Z.min (chunk_length * i + chunk_length) 100000 - chunk_length * i,
               ("bilibili_video/" +:+ "t" +:+ "/slice/" +:+ "BV1") +:+ "/"
               +:+ PyStr.str i +:+ ".mp3"))
          <$> seqZ 0 ((100000 + chunk_length - 1) `div` chunk_length).
Proof.
  apply (split_audio_exports_consecutive_chunks Z (λ a, a) (λ a s e, Z.min e a - s)
           (λ _, ret tt) (λ _, ret 100000) (λ _ _, ret tt)
           "bilibili_video/t/conv/BV1.mp3" "t" "BV1" 100000
           Demo.world Demo.world Demo.world).
  - reflexivity.
  - reflexivity.
  - intros chunk path w0. by exists w0.
  - simpl. lia.
Defined.

(** ** Transcription and audio extraction *)

Lemma transcribed_app {Audio} (a b : list (stage_call Audio)) :
  transcribed (a ++ b) = transcribed a ++ transcribed b.
Proof. apply omap_app. Qed.

Lemma written_app {Audio} (a b : list (stage_call Audio)) :
  written (a ++ b) = written a ++ written b.
Proof. apply omap_app. Qed.

Section TranscribeProperties.

Variable Audio : Type.
Variable makedirs : string → M World unit.
Variable ffmpeg_run : string → string → M World unit.
Variable model_transcribe : string → string → M World string.
Variable write_text : string → string → M World unit.

Abbreviation transcribe_chunks' :=
  (transcribe_chunks Audio model_transcribe).
Abbreviation transcribe_audio' :=
  (transcribe_audio Audio makedirs model_transcribe write_text).
Abbreviation extract_audio' :=
  (extract_audio Audio makedirs ffmpeg_run).

Lemma transcribe_chunks_trace prompt audio_chunks texts (st : Stage Audio) :
  ∃ new, (transcribe_chunks' prompt audio_chunks texts st).2.2 = st.2 ++ new
    ∧ written new = []
    ∧ match (transcribe_chunks' prompt audio_chunks texts st).1 with
      | Ok texts' =>
          transcribed new = audio_chunks
          ∧ ∃ more, texts' = texts ++ more ∧ length more = length audio_chunks
      | Raise _ => True
      end.
Proof using Type.
  revert texts st. induction audio_chunks as [|chunk rest IH]; intros texts st.
  - exists []. simpl. rewrite app_nil_r. repeat split; try done.
    exists []. by rewrite app_nil_r.
  - cbn [transcribe_chunks]. erewrite bind_ok by apply note_run.
    destruct (model_transcribe chunk prompt st.1) as [[result_text|ex] w1] eqn:Hm.
    + erewrite bind_ok by (apply on_fst_run, Hm).
      erewrite bind_ok by apply on_fst_print. cbn [fst snd].
      destruct (IH (texts ++ [PyStr.strip result_text])
                  (emit [line ("转换结果：" +:+ PyStr.strip result_text)] w1,
                   st.2 ++ [CallTranscribe chunk prompt]))
        as (new & Htr & Hw & Hres).
      exists (CallTranscribe chunk prompt :: new).
      rewrite Htr. cbn [fst snd]. rewrite <- app_assoc. split; [done|].
      split; [exact Hw|].
      destruct (transcribe_chunks' _ _ _ _).1 as [texts'|]; [|done].
      destruct Hres as (Ht & more & -> & Hlen). split.
      * change (transcribed (CallTranscribe chunk prompt :: new))
          with (chunk :: transcribed new). by rewrite Ht.
      * exists (PyStr.strip result_text :: more). rewrite <- app_assoc.
        split; [done|]. simpl. by rewrite Hlen.
    + erewrite bind_raise by (apply on_fst_run, Hm).
      exists [CallTranscribe chunk prompt]. done.
Qed.

Lemma transcribe_audio_cases audio_chunks title video_id w :
  let output_path := ("bilibili_video/" +:+ title +:+ "/outputs") +:+ "/"
                     +:+ video_id +:+ ".txt" in
  let run := transcribe_audio' audio_chunks title video_id (w, []) in
  (written run.2.2 = [] ∧ ∃ ex, run.1 = Raise ex)
  ∨ (∃ texts, length texts = length audio_chunks
              ∧ written run.2.2 = [(output_path, String.concat PyStr.nl texts)]
              ∧ transcribed run.2.2 = audio_chunks
              ∧ (run.1 = Ok output_path ∨ ∃ ex, run.1 = Raise ex)).
Proof using Type.
  intros output_path run. subst run. unfold transcribe_audio.
  erewrite bind_ok by apply note_run. cbn [fst snd app].
  destruct (makedirs ("bilibili_video/" +:+ title +:+ "/outputs") w)
    as [[[]|ex] w1] eqn:Hmk.
  2:{ erewrite bind_raise by (apply on_fst_run, Hmk). left. simpl. eauto. }
  erewrite bind_ok by (apply on_fst_run, Hmk).
  destruct (transcribe_chunks_trace
              ("以下是普通话的句子。这是一个关于" +:+ title +:+ "的视频。")
              audio_chunks [] (w1, [CallMakedirs ("bilibili_video/" +:+ title +:+ "/outputs")]))
    as (new & Htr & Hw & Hres).
  destruct (transcribe_chunks' _ _ _ _) as [[texts|ex] [w2 calls]] eqn:Hch;
    cbn [fst snd] in Htr, Hres.
  2:{ erewrite bind_raise by exact Hch. left. cbn [fst snd]. subst calls.
      rewrite written_app, Hw. eauto. }
  erewrite bind_ok by exact Hch.
  destruct Hres as (Ht & more & -> & Hlen). simpl app. subst calls.
  right. exists more. split; [done|].
  erewrite bind_ok by apply note_run. cbn [fst snd].
  destruct (write_text output_path (String.concat PyStr.nl more) w2)
    as [[[]|ex] w3] eqn:Hwr.
  - erewrite bind_ok by (apply on_fst_run, Hwr).
    erewrite bind_ok by apply on_fst_print. cbn [fst snd].
    unfold ret. cbn [fst snd]. rewrite !written_app, !transcribed_app, Hw, Ht.
    split; [reflexivity|]. split; [apply app_nil_r|by left].
  - erewrite bind_raise by (apply on_fst_run, Hwr).
    cbn [fst snd]. rewrite !written_app, !transcribed_app, Hw, Ht.
    split; [reflexivity|]. split; [apply app_nil_r|right; eauto].
Qed.

(** X25.  [transcribe_audio] writes the transcript at most once, and only
    after every chunk has been transcribed, in order: the text it writes is
    the join, with line breaks, of as many texts as there are chunks, and
    the file is the one under [outputs] named after the video.  A run that
    stops before the last chunk writes nothing. *)
Theorem transcript_written_after_all_chunks (audio_chunks : list string)
    (title video_id : string) (w : World) (path text : string) :
  let run := transcribe_audio' audio_chunks title video_id (w, []) in
  (path, text) ∈ written run.2.2 →
  path = output_path_of {| title := title; bvid := video_id; aid := None |}
  ∧ written run.2.2 = [(path, text)]
  ∧ transcribed run.2.2 = audio_chunks
  ∧ ∃ texts, length texts = length audio_chunks
             ∧ text = String.concat PyStr.nl texts.
Proof using Type.
  intros run Hin. subst run.
  destruct (transcribe_audio_cases audio_chunks title video_id w)
    as [[Hw _]|(texts & Hlen & Hw & Ht & _)].
  - rewrite Hw in Hin. by apply elem_of_nil in Hin.
  - rewrite Hw in Hin |- *. apply list_elem_of_singleton in Hin. injection Hin as -> ->.
    repeat split; [done|]. eauto.
Qed.

(** X26.  When [transcribe_audio] returns, it returns the path that
    [process_video] tests before it processes a video, and the transcript
    has been handed to the file system at this path. *)
Theorem transcribe_audio_returns_checked_path (audio_chunks : list string)
    (title video_id : string) (w : World) (path : string) (a : option Z) :
  let run := transcribe_audio' audio_chunks title video_id (w, []) in
  run.1 = Ok path →
  path = output_path_of {| title := title; bvid := video_id; aid := a |}
  ∧ ∃ text, written run.2.2 = [(path, text)].
Proof using Type.
  intros run Hok. subst run.
  destruct (transcribe_audio_cases audio_chunks title video_id w)
    as [[_ [ex Hex]]|(texts & _ & Hw & _ & [Hr|[ex Hex]])]; try congruence.
  rewrite Hr in Hok. injection Hok as <-. split; [done|]. eauto.
Qed.

(** X27.  When the audio file of the video exists once the directory has
    been made, [extract_audio] does not run ffmpeg: it reports the file and
    returns its path. *)
Theorem extract_audio_keeps_existing (video_path title video_id : string)
    (w w1 : World) (calls : list (stage_call Audio)) :
  let audio_dir := "bilibili_video/" +:+ title +:+ "/conv" in
  let audio_path := audio_dir +:+ "/" +:+ video_id +:+ ".mp3" in
  makedirs audio_dir w = (Ok tt, w1) →
  is_Some (fs w1 !! audio_path) →
  extract_audio' video_path title video_id (w, calls)
  = (Ok audio_path,
     (emit [line ("音频已存在：" +:+ audio_path)] w1, calls ++ [CallMakedirs audio_dir])).
Proof using Type.
  intros audio_dir audio_path Hmk Hex. unfold extract_audio.
  erewrite bind_ok by apply note_run. cbn [fst snd].
  erewrite bind_ok by (apply on_fst_run, Hmk).
  erewrite bind_ok by reflexivity. cbn [fst snd].
  rewrite bool_decide_eq_true_2 by done.
  by erewrite bind_ok by apply on_fst_print.
Qed.

End TranscribeProperties.

Lemma transcript_written_after_all_chunks_witness :
  "bilibili_video/t/outputs/BV1.txt"
  = output_path_of {| title := "t"; bvid := "BV1"; aid := None |}
  ∧ written (transcribe_audio Z (λ _, ret tt) (λ p _, ret (" text of " +:+ p +:+ " "))
               (λ _ _, ret tt) ["0.mp3"; "1.mp3"] "t" "BV1" (Demo.world, [])).2.2
    = [("bilibili_video/t/outputs/BV1.txt",
        "text of 0.mp3" +:+ PyStr.nl +:+ "text of 1.mp3")]
  ∧ transcribed (transcribe_audio Z (λ _, ret tt) (λ p _, ret (" text of " +:+ p +:+ " "))
                   (λ _ _, ret tt) ["0.mp3"; "1.mp3"] "t" "BV1" (Demo.world, [])).2.2
    = ["0.mp3"; "1.mp3"]
  ∧ ∃ texts, length texts = length ["0.mp3"; "1.mp3"]
             ∧ "text of 0.mp3" +:+ PyStr.nl +:+ "text of 1.mp3"
               = String.concat PyStr.nl texts.
Proof.
  apply (transcript_written_after_all_chunks Z (λ _, ret tt)
           (λ p _, ret (" text of " +:+ p +:+ " ")) (λ _ _, ret tt)
           ["0.mp3"; "1.mp3"] "t" "BV1" Demo.world).
  compute_done.
Defined.

Lemma transcribe_audio_returns_checked_path_witness :
  "bilibili_video/t/outputs/BV1.txt"
  = output_path_of {| title := "t"; bvid := "BV1"; aid := Some 7 |}
  ∧ ∃ text,
      written (transcribe_audio Z (λ _, ret tt) (λ p _, ret p) (λ _ _, ret tt)
                 ["0.mp3"] "t" "BV1" (Demo.world, [])).2.2
      = [("bilibili_video/t/outputs/BV1.txt", text)].
Proof.
  apply (transcribe_audio_returns_checked_path Z (λ _, ret tt) (λ p _, ret p)
           (λ _ _, ret tt) ["0.mp3"] "t" "BV1" Demo.world).
  reflexivity.
Defined.

Lemma extract_audio_keeps_existing_witness :
  extract_audio Z (λ _, ret tt) (λ _ _, raise (Exn OSError "ffmpeg"))
    "bilibili_video/t/video/BV1.mp4" "t" "BV1"
    (with_fs (<["bilibili_video/t/conv/BV1.mp3" := NotJson "audio"]>) Demo.world, [])
  = (Ok "bilibili_video/t/conv/BV1.mp3",
     (emit [line ("音频已存在：" +:+ "bilibili_video/t/conv/BV1.mp3")]
        (with_fs (<["bilibili_video/t/conv/BV1.mp3" := NotJson "audio"]>) Demo.world),
      [] ++ [CallMakedirs "bilibili_video/t/conv"])).
Proof.
  apply (extract_audio_keeps_existing Z (λ _, ret tt) (λ _ _, raise (Exn OSError "ffmpeg"))
           "bilibili_video/t/video/BV1.mp4" "t" "BV1"
           (with_fs (<["bilibili_video/t/conv/BV1.mp3" := NotJson "audio"]>) Demo.world)).
  - reflexivity.
  - vm_compute. eexists. reflexivity.
Defined.

(** ** The second look at the page *)


Section SecondLook.

Variable py_int : string → option Z.
Variable video_api_url : string → option string.
Variable download_video : video_info → M World (option string).
Variable extract_audio : string → string → string → M World string.
Variable split_audio : string → string → string → M World (list string).
Variable transcribe_audio : list string → string → string → M World string.


End SecondLook.

